(** * Signal core of the crypto futures bot (main.py)

    A shallow embedding of [generate_signals], [calculate_win_rate],
    [analyze_trend] and [fetch_klines], and the properties the
    specification states about them; then of [fetch_news], [place_order]
    and the handlers [signal_handler] and [order_handler], with what the
    code itself guarantees about them.

    Modelling choices, all visible in the definitions below:
    - a Python float is an exact rational or NaN ([float := option Q]);
      every comparison with NaN is false, every operation on NaN is NaN.
      Comparisons are exact on doubles too; where rounding decides, the
      last line of [calculate_win_rate] and the levels of a plan, the
      computation is given a second time on binary64 doubles ([rate64],
      [levels64]);
    - a pandas DataFrame is an object in a heap, addressed by a reference;
      the six candle columns are kept row-wise, the five columns that
      [generate_signals] adds are kept column-wise and are absent until it
      has run;
    - the indicator library (pandas_ta) is not part of the repository: it
      is the interface [TA]; the exchange client is an oracle holding the
      answers of the successive [futures_klines] calls;
    - [lookback] and [limit] are counts and are natural numbers. *)

From Stdlib Require Import ZArith QArith Qround Lia Lqa Bool Ascii String.
From Stdlib Require Import PrimFloat FloatOps SpecFloat Uint63.
From stdpp Require Import base option list.

Local Open Scope Q_scope.

(** ** Floats *)

Definition float : Type := option Q.
Definition NaN : float := None.
Definition num (q : Q) : float := Some q.

Definition Qltb (x y : Q) : bool :=
  (Qnum x * QDen y <? Qnum y * QDen x)%Z.

(** [a < b] and [a > b] on floats: false as soon as one side is NaN. *)
Definition flt (a b : float) : bool :=
  match a, b with
  | Some x, Some y => Qltb x y
  | _, _ => false
  end.
Definition fgt (a b : float) : bool := flt b a.

(** Arithmetic is exact: no rounding, no overflow. *)
Definition lift2 (f : Q -> Q -> Q) (a b : float) : float :=
  match a, b with
  | Some x, Some y => Some (f x y)
  | _, _ => None
  end.
Definition fadd := lift2 Qplus.
Definition fsub := lift2 Qminus.
Definition fmul := lift2 Qmult.
Definition fdiv (a b : float) : float :=
  match a, b with
  | Some x, Some y => if Qeq_bool y 0 then None else Some (x / y)
  | _, _ => None
  end.

(** Equality of floats as numbers; NaN is related to NaN only so that two
    undefined results can be compared. *)
Definition feq (a b : float) : Prop :=
  match a, b with
  | Some x, Some y => x == y
  | None, None => True
  | _, _ => False
  end.


(** The order on floats as a proposition. *)
Definition fless (a b : float) : Prop :=
  match a, b with
  | Some x, Some y => x < y
  | _, _ => False
  end.

(** ** Data *)

Inductive Direction := LONG | SHORT.

Definition Direction_eqb (a b : Direction) : bool :=
  match a, b with
  | LONG, LONG | SHORT, SHORT => true
  | _, _ => false
  end.

Record Candle := mkCandle {
  open_time : Z;
  open : float;
  high : float;
  low : float;
  close : float;
  volume : float
}.

(** The columns added by [generate_signals]. A cell of [signal] is Python's
    [None], ['LONG'] or ['SHORT']. *)
Record Indicators := mkIndicators {
  EMA_fast : list float;
  EMA_slow : list float;
  RSI : list float;
  ATR : list float;
  signal : list (option Direction)
}.

Record DataFrame := mkDataFrame {
  candles : list Candle;
  added : option Indicators
}.

Definition len (df : DataFrame) : nat := length (candles df).

(** [df['close']]. *)
Definition col (f : Candle -> float) (df : DataFrame) : list float :=
  map f (candles df).

(** A cell of a float column; the positions read below are always in range. *)
Definition cell (c : list float) (i : nat) : float := default NaN (c !! i).

(** The indicator library: [ta.ema], [ta.rsi], [ta.atr]. *)
Class TA := mkTA {
  ema : list float -> nat -> list float;
  rsi : list float -> nat -> list float;
  atr : list float -> list float -> list float -> nat -> list float
}.

(** [df[name] = series] aligns the series on the frame's index: the column
    has one cell per row, NaN where the series has none. *)
Definition aligned (n : nat) (s : list float) : list float :=
  take n (s ++ replicate n NaN).

(** ** generate_signals *)

Definition set_signal (x : Indicators) (i : nat) (d : Direction) : Indicators :=
  mkIndicators (EMA_fast x) (EMA_slow x) (RSI x) (ATR x)
               (<[i := Some d]> (signal x)).

(** One round of the loop [for i in range(1, len(df))]. *)
Definition loop_body (x : Indicators) (i : nat) : Indicators :=
  let prev_fast := cell (EMA_fast x) (i - 1) in
  let prev_slow := cell (EMA_slow x) (i - 1) in
  let curr_fast := cell (EMA_fast x) i in
  let curr_slow := cell (EMA_slow x) i in
  let curr_rsi := cell (RSI x) i in
  if flt prev_fast prev_slow && fgt curr_fast curr_slow && flt curr_rsi (num 70)
  then set_signal x i LONG
  else if fgt prev_fast prev_slow && flt curr_fast curr_slow
          && fgt curr_rsi (num 30)
  then set_signal x i SHORT
  else x.

Section Engine.
Context {ta : TA}.

(** The frame's columns right before the loop: the four indicator columns
    and [df['signal'] = None]. *)
Definition with_indicators (df : DataFrame) : Indicators :=
  let n := len df in
  mkIndicators
    (aligned n (ema (col close df) 10))
    (aligned n (ema (col close df) 30))
    (aligned n (rsi (col close df) 14))
    (aligned n (atr (col high df) (col low df) (col close df) 14))
    (replicate n None).

(** The added columns when the loop is over. *)
Definition labelled (df : DataFrame) : Indicators :=
  fold_left loop_body (seq 1 (len df - 1)) (with_indicators df).

(** The content of the frame after [generate_signals(df)]. *)
Definition generate_signals_frame (df : DataFrame) : DataFrame :=
  mkDataFrame (candles df) (Some (labelled df)).

End Engine.

(** ** Rows, as [iterrows] and [iloc] hand them out *)

Record Row := mkRow {
  index : nat;
  row_close : float;
  row_RSI : float;
  row_ATR : float;
  row_signal : option Direction
}.

Definition row_at (x : Indicators) (i : nat) (c : Candle) : Row :=
  mkRow i (close c) (cell (RSI x) i) (cell (ATR x) i)
        (default None (signal x !! i)).

Definition rows (cs : list Candle) (x : Indicators) : list Row :=
  imap (row_at x) cs.

(** [df.dropna(subset=['signal'])]. *)
Definition has_signal (r : Row) : bool :=
  match row_signal r with Some _ => true | None => false end.
Definition dropna_signal (rs : list Row) : list Row := List.filter has_signal rs.

(** [.tail(n)] and [.iloc[-1:]]. *)
Definition tail {A} (n : nat) (l : list A) : list A := drop (length l - n) l.

(** [series.shift(-1)]. *)
Definition shift_back (c : list float) : list float :=
  match c with
  | [] => []
  | _ :: t => t ++ [NaN]
  end.

Definition signal_is (r : Row) (d : Direction) : bool :=
  match row_signal r with
  | Some d' => Direction_eqb d' d
  | None => false
  end.

(** ** calculate_win_rate, after the fetch *)

(** Rounding to the nearest integer, ties to even; [round2] rounds an
    exact rational to hundredths with it.  Python's [round(x, 2)] on a
    double is [round64] below. *)
Definition round_half_even (x : Q) : Z :=
  let f := Qfloor x in
  match Qcompare (x - inject_Z f) (1 # 2) with
  | Lt => f
  | Gt => (f + 1)%Z
  | Eq => if Z.even f then f else (f + 1)%Z
  end.
Definition round2 (x : Q) : Q := inject_Z (round_half_even (x * 100)) / 100.

(** [signals = df.dropna(subset=['signal']).tail(lookback)]. *)
Definition selected (cs : list Candle) (x : Indicators) (lookback : nat)
  : list Row :=
  tail lookback (dropna_signal (rows cs x)).

(** One round of [for idx, row in signals.iterrows()]. *)
Definition wins_step (cs : list Candle) (wins : nat) (row : Row) : nat :=
  let next_price := cell (shift_back (map close cs)) (index row) in
  if (signal_is row LONG && fgt next_price (row_close row))
     || (signal_is row SHORT && flt next_price (row_close row))
  then S wins else wins.

Definition count_wins (cs : list Candle) (signals : list Row) : nat :=
  fold_left (wins_step cs) signals 0%nat.

(** The rate on exact rationals; [win_rate64] below is the same
    computation on doubles, where the two can differ by a hundredth. *)
Definition win_rate (cs : list Candle) (x : Indicators) (lookback : nat)
  : float :=
  let signals := selected cs x lookback in
  let wins := count_wins cs signals in
  if (length signals =? 0)%nat then num 0
  else num (round2 ((inject_Z (Z.of_nat wins)
                     / inject_Z (Z.of_nat (length signals))) * 100)).

(** ** The rate in binary64 *)

(** [win_rate] above computes the last line of [calculate_win_rate] on
    exact rationals. Python computes it on doubles: the quotient of the two
    integers, its product with 100, and [round(x, 2)], which rounds the
    exact value of the double to the nearest hundredth, ties to even, and
    returns the double nearest to that decimal. *)








(** ** analyze_trend, after generate_signals *)

(** The returned dict: [{'signal': None}], or the five entries. *)
Inductive Plan :=
| no_trade
| trade (direction : Direction) (entry stop_loss take_profit rsi_value : float).

Definition sign (direction : Direction) : float :=
  match direction with LONG => num 1 | SHORT => num (-1) end.

Definition plan_of (row : Row) (direction : Direction) : Plan :=
  let entry := row_close row in
  let atr_value := row_ATR row in
  let sl := fsub entry (fmul atr_value (sign direction)) in
  let tp := fadd entry (fmul (fmul atr_value (num 2)) (sign direction)) in
  trade direction entry sl tp (row_RSI row).

(** [last = df.dropna(subset=['signal']).iloc[-1:]] and what follows; a row
    that survived [dropna] has a direction. *)
Definition trend (cs : list Candle) (x : Indicators) : Plan :=
  match tail 1 (dropna_signal (rows cs x)) with
  | [] => no_trade
  | row :: _ =>
      match row_signal row with
      | Some direction => plan_of row direction
      | None => no_trade
      end
  end.

(** The two levels of [analyze_trend] as Python computes them, on doubles:
    [entry - atr * (1 if direction == 'LONG' else -1)] and
    [entry + atr * 2 * (1 if direction == 'LONG' else -1)]. *)
Definition levels64 (entry range : PrimFloat.float) (direction : Direction)
  : PrimFloat.float * PrimFloat.float :=
  let s := match direction with LONG => 1%float | SHORT => (-1)%float end in
  (PrimFloat.sub entry (PrimFloat.mul range s),
   PrimFloat.add entry (PrimFloat.mul (PrimFloat.mul range 2) s)).

(** ** The world: heap of frames and the exchange *)

Record Request := mkRequest {
  req_symbol : string;
  req_interval : string;
  req_limit : nat
}.

(** [exchange] holds what the successive calls of [binance.futures_klines]
    will answer: the candles, or [None] when the call raises. [requests]
    logs the calls made so far. *)
Record World := mkWorld {
  heap : list DataFrame;
  exchange : list (option (list Candle));
  requests : list Request
}.

Inductive Exn := ConnectionError | KeyError | InvalidReference.

Definition M (A : Type) : Type := World -> (Exn + A) * World.

Definition ret {A} (a : A) : M A := fun w => (inr a, w).
Definition raise {A} (e : Exn) : M A := fun w => (inl e, w).
Definition bind {A B} (m : M A) (k : A -> M B) : M B := fun w =>
  match m w with
  | (inr a, w') => k a w'
  | (inl e, w') => (inl e, w')
  end.

(** Running a computation from a world: its result, or the exception it
    raised, and the world it leaves. *)
Definition run {A} (m : M A) (w : World) : (Exn + A) * World := m w.

Notation "'let!' x ':=' m 'in' k" := (bind m (fun x => k))
  (at level 10, x name, m at level 100, k at level 200).

Definition ref := nat.

Definition alloc (df : DataFrame) : M ref := fun w =>
  (inr (length (heap w)),
   mkWorld (heap w ++ [df]) (exchange w) (requests w)).

Definition load (r : ref) : M DataFrame := fun w =>
  match heap w !! r with
  | Some df => (inr df, w)
  | None => (inl InvalidReference, w)
  end.

Definition store (r : ref) (df : DataFrame) : M unit := fun w =>
  (inr tt, mkWorld (<[r := df]> (heap w)) (exchange w) (requests w)).

(** [binance.futures_klines(symbol, interval, limit)]. *)
Definition futures_klines (rq : Request) : M (option (list Candle)) := fun w =>
  match exchange w with
  | [] => (inr None, mkWorld (heap w) [] (requests w ++ [rq]))
  | a :: rest => (inr a, mkWorld (heap w) rest (requests w ++ [rq]))
  end.

(** ** fetch_klines *)

(** [for attempt in range(3)]: the first answer that is not an exception is
    turned into a new frame; after the last failure, ConnectionError. The
    log line and the one-second sleep between attempts are left out. *)
Fixpoint fetch_attempts (attempts : nat) (rq : Request) : M ref :=
  match attempts with
  | O => raise ConnectionError
  | S k =>
      let! raw := futures_klines rq in
      match raw with
      | Some cs => alloc (mkDataFrame cs None)
      | None => fetch_attempts k rq
      end
  end.

Definition fetch_klines (symbol interval : string) (limit : nat) : M ref :=
  fetch_attempts 3 (mkRequest symbol interval limit).

Section Program.
Context {ta : TA}.

(** [generate_signals(df)]: writes the new columns into the frame it was
    given and returns that frame. *)
Definition generate_signals (df : ref) : M ref :=
  let! d := load df in
  let! _ := store df (generate_signals_frame d) in
  ret df.

(** The frame's columns; KeyError when [generate_signals] has not run. *)
Definition columns (df : ref) : M (list Candle * Indicators) :=
  let! d := load df in
  match added d with
  | Some x => ret (candles d, x)
  | None => raise KeyError
  end.

Definition calculate_win_rate (symbol interval : string) (lookback : nat)
  : M float :=
  let! df := fetch_klines symbol interval (lookback + 50) in
  let! df := generate_signals df in
  let! d := columns df in
  ret (win_rate (fst d) (snd d) lookback).

Definition analyze_trend (df : ref) : M Plan :=
  let! df := generate_signals df in
  let! d := columns df in
  ret (trend (fst d) (snd d)).

End Program.

(** ** The indicator engine *)

(** The Indicator Engine of the specification (section 4.1). The code calls
    pandas_ta, which is not part of the repository; [spec_ema], [spec_rsi]
    and [spec_atr] below follow the specification's description of the
    three indicators. Values for which not enough history has accumulated
    are NaN. *)

Definition fmax (a b : float) : float :=
  match a, b with
  | Some x, Some y => Some (if Qltb x y then y else x)
  | _, _ => None
  end.
Definition fabs (a : float) : float :=
  match a with
  | Some x => Some (if Qltb x 0 then - x else x)
  | None => None
  end.
Definition fsum (l : list float) : float := fold_right fadd (num 0) l.
Definition mean (l : list float) : float :=
  fdiv (fsum l) (num (inject_Z (Z.of_nat (length l)))).

(** [ema[i] = close[i]*k + ema[i-1]*(1-k)]. *)
Fixpoint ema_from (k : Q) (prev : float) (closes : list float) : list float :=
  match closes with
  | [] => []
  | c :: rest =>
      let e := fadd (fmul c (num k)) (fmul prev (num (1 - k))) in
      e :: ema_from k e rest
  end.

(** Modelled from the spec: [ta.ema], which pandas_ta supplies. Exponential
    smoothing seeded with the simple average of the first [period] closes,
    then the recurrence above with [k = 2/(period+1)]; undefined before the
    seed, and everywhere when there are fewer than [period] closes. *)
Definition spec_ema (closes : list float) (period : nat) : list float :=
  if (length closes <? period)%nat || (period =? 0)%nat
  then replicate (length closes) NaN
  else
    let seed := mean (take period closes) in
    replicate (period - 1) NaN
      ++ seed :: ema_from (2 / inject_Z (Z.of_nat period + 1)) seed
                          (drop period closes).

(** Closing-price deltas, split into gains and losses. *)
Definition deltas (closes : list float) : list float :=
  zip_with fsub (drop 1 closes) closes.
Definition gain (d : float) : float := fmax d (num 0).
Definition loss (d : float) : float := fmax (fsub (num 0) d) (num 0).

Definition rsi_of (avg_gain avg_loss : float) : float :=
  fdiv (fmul (num 100) avg_gain) (fadd avg_gain avg_loss).

(** Wilder smoothing of the two averages. *)
Fixpoint rsi_from (period : nat) (g l : float) (ds : list float) : list float :=
  match ds with
  | [] => []
  | d :: rest =>
      let n := num (inject_Z (Z.of_nat period)) in
      let g' := fdiv (fadd (fmul g (fsub n (num 1))) (gain d)) n in
      let l' := fdiv (fadd (fmul l (fsub n (num 1))) (loss d)) n in
      rsi_of g' l' :: rsi_from period g' l' rest
  end.

(** Modelled from the spec: [ta.rsi], which pandas_ta supplies. Average
    gain against average loss over the closing-price deltas with Wilder
    smoothing; undefined for indices below [period]. *)
Definition spec_rsi (closes : list float) (period : nat) : list float :=
  let ds := deltas closes in
  if (length ds <? period)%nat || (period =? 0)%nat
  then replicate (length closes) NaN
  else
    let g := mean (map gain (take period ds)) in
    let l := mean (map loss (take period ds)) in
    replicate period NaN ++ rsi_of g l :: rsi_from period g l (drop period ds).

(** [max(high-low, |high-prev_close|, |low-prev_close|)], bar by bar from
    the second bar on. *)
Definition true_range (h l prev_close : float) : float :=
  fmax (fsub h l) (fmax (fabs (fsub h prev_close)) (fabs (fsub l prev_close))).
Definition true_ranges (highs lows closes : list float) : list float :=
  zip_with (fun hl pc => true_range (fst hl) (snd hl) pc)
           (zip (drop 1 highs) (drop 1 lows)) closes.

(** Modelled from the spec: [ta.atr], which pandas_ta supplies. Rolling
    average of the last [period] true ranges; undefined for indices below
    [period]. *)
Definition spec_atr (highs lows closes : list float) (period : nat)
  : list float :=
  let trs := true_ranges highs lows closes in
  imap (fun i _ =>
          if (i <? period)%nat || (period =? 0)%nat then NaN
          else mean (take period (drop (i - period) trs)))
       closes.

(** Modelled from the spec: the indicator library as a whole. *)
Definition spec_ta : TA := mkTA spec_ema spec_rsi spec_atr.

(** ** Sample data *)

(** Bars that open, peak, bottom and close at the same price. *)
Definition candle (t : Z) (c : Q) : Candle :=
  mkCandle t (num c) (num c) (num c) (num c) (num 1).
Definition series (closes : list Z) : list Candle :=
  imap (fun i c => candle (Z.of_nat i) (inject_Z c)) closes.

(** Thirty-eight bars: the fast EMA crosses above the slow one at bar 33,
    whose next bar closes higher, and back below it at bar 37, the last. *)
Definition edge_candles : list Candle :=
  series [100; 100; 97; 99; 101; 104; 104; 102; 104; 101; 103; 102; 100; 97;
          99; 97; 94; 95; 97; 97; 99; 102; 105; 102; 103; 100; 100; 98; 100;
          100; 98; 97; 100; 103; 104; 101; 98; 97]%Z.
Definition edge_frame : DataFrame := mkDataFrame edge_candles None.
(** A caller that holds [edge_frame] at reference 0. *)
Definition edge_heap : World := mkWorld [edge_frame] [] [].
(** An exchange whose first call fails and whose second answers. *)
Definition edge_world : World := mkWorld [] [None; Some edge_candles] [].

(** The first thirty bars of [edge_candles]: one short of the lookback. *)
Definition thirty_frame : DataFrame := mkDataFrame (take 30 edge_candles) None.

(** Three bars, too few for any indicator. *)
Definition short_frame : DataFrame := mkDataFrame (series [100; 101; 99]%Z) None.
Definition short_heap : World := mkWorld [short_frame] [] [].

(** Thirty bars at 100, two at 200, sixteen at 109: the fast EMA falls back
    below the slow one at bar 46, after fourteen bars without any range. *)
Definition still_candles : list Candle :=
  series (replicate 30 100 ++ replicate 2 200 ++ replicate 16 109)%Z.
Definition still_heap : World := mkWorld [mkDataFrame still_candles None] [] [].

(** The same bars, the high of bar 46 missing. *)
Definition gap_candles : list Candle :=
  <[46%nat := mkCandle 46 (num 109) NaN (num 109) (num 109) (num 1)]>
    still_candles.
Definition gap_frame : DataFrame := mkDataFrame gap_candles None.
Definition gap_heap : World := mkWorld [gap_frame] [] [].

(** ** The bot around the core *)

(** The handlers and the two other collaborators: the news feed reached
    through [session.get] and the order endpoint of the exchange client.
    A reply is kept as the template of its text and the values put into
    it, a JSON body as the value [res.json()] parses it to. *)

(** [str.upper], [str.lower] on ASCII letters; [s[:n]] and [s[:-n]]. *)
Definition upper_char (c : ascii) : ascii :=
  let n := nat_of_ascii c in
  if (97 <=? n)%nat && (n <=? 122)%nat then ascii_of_nat (n - 32) else c.
Definition lower_char (c : ascii) : ascii :=
  let n := nat_of_ascii c in
  if (65 <=? n)%nat && (n <=? 90)%nat then ascii_of_nat (n + 32) else c.
Fixpoint upper (s : string) : string :=
  match s with
  | EmptyString => EmptyString
  | String c rest => String (upper_char c) (upper rest)
  end.
Fixpoint lower (s : string) : string :=
  match s with
  | EmptyString => EmptyString
  | String c rest => String (lower_char c) (lower rest)
  end.
Definition str_take (n : nat) (s : string) : string := String.substring 0 n s.
Definition str_drop_last (n : nat) (s : string) : string :=
  String.substring 0 (String.length s - n) s.

#[warnings="-register-all"]
Inductive json :=
| JNull
| JBool (b : bool)
| JNum (q : Q)
| JStr (s : string)
| JList (l : list json)
| JDict (d : list (string * json)).

Inductive Error :=
| Core (e : Exn)
| ValueError
| TypeError
| AttributeError
| MissingKey
| ExchangeError.

Fixpoint assoc (k : string) (d : list (string * json)) : option json :=
  match d with
  | [] => None
  | (k', v) :: rest => if String.eqb k k' then Some v else assoc k rest
  end.

(** [u[k]] with a string key: KeyError on a dict without the key, TypeError
    on anything that is not a dict. *)
Definition getitem (u : json) (k : string) : Error + json :=
  match u with
  | JDict d =>
      match assoc k d with
      | Some v => inr v
      | None => inl MissingKey
      end
  | _ => inl TypeError
  end.

(** [x.get(k, dflt)]: a method of dicts only. *)
Definition dict_get (x : json) (k : string) (dflt : json) : Error + json :=
  match x with
  | JDict d => inr (default dflt (assoc k d))
  | _ => inl AttributeError
  end.

(** [x[:n]]: lists and strings can be sliced, nothing else. *)
Definition slice_to (n : nat) (x : json) : Error + json :=
  match x with
  | JList l => inr (JList (take n l))
  | JStr s => inr (JStr (str_take n s))
  | _ => inl TypeError
  end.

(** [for u in x], for the two kinds of value a slice can be. *)
Definition items (x : json) : list json :=
  match x with
  | JList l => l
  | JStr s => map (fun c => JStr (String c EmptyString)) (list_ascii_of_string s)
  | _ => []
  end.

(** One entry of the list [fetch_news] returns. *)
Record News := mkNews {
  date : json;
  title : json;
  url : json
}.

Record Order := mkOrder {
  order_symbol : string;
  order_side : string;
  order_type : string;
  order_quantity : float
}.

(** The lines of the signal report, in the order the handler appends them. *)
Inductive Line :=
| Headline (symbol : string) (direction : option Direction)
| EntryLine (v : float)
| StopLine (v : float)
| TargetLine (v : float)
| MomentumLine (v : float)
| WinRateLine (lookback : nat) (rate : float)
| NewsHeader
| NewsLine (news_title news_url day : json).

Inductive Text :=
| Greeting
| Report (lines : list Line)
| SignalFailure (symbol : string)
| OrderPlaced (order_id : json) (side : string) (qty : float) (symbol : string)
| OrderUsage.

Record Message := mkMessage {
  text : Text;
  parse_mode : option string
}.

(** The world of the core, the answers the news feed and the order endpoint
    will give to the successive calls ([None] when the call raises), the
    log of the calls made, and the replies sent. *)
Record Env := mkEnv {
  world : World;
  http : list (option json);
  http_log : list string;
  order_answers : list (option json);
  order_log : list Order;
  outbox : list Message
}.

Definition B (A : Type) : Type := Env -> (Error + A) * Env.

Definition unit_b {A} (a : A) : B A := fun e => (inr a, e).
Definition raise_b {A} (x : Error) : B A := fun e => (inl x, e).
Definition bind_b {A C} (m : B A) (k : A -> B C) : B C := fun e =>
  match m e with
  | (inr a, e') => k a e'
  | (inl x, e') => (inl x, e')
  end.

(** [try: m  except Exception: h]. *)
Definition catch {A} (m : B A) (h : Error -> B A) : B A := fun e =>
  match m e with
  | (inr a, e') => (inr a, e')
  | (inl x, e') => h x e'
  end.

(** A computation of the core, run on the core's part of the world. *)
Definition lift {A} (m : M A) : B A := fun e =>
  let out := m (world e) in
  let e' := mkEnv (snd out) (http e) (http_log e) (order_answers e)
                  (order_log e) (outbox e) in
  match fst out with
  | inr a => (inr a, e')
  | inl x => (inl (Core x), e')
  end.

(** An exception raised by a pure step. *)
Definition check {A} (r : Error + A) : B A :=
  match r with
  | inr a => unit_b a
  | inl x => raise_b x
  end.

Definition run_b {A} (m : B A) (e : Env) : (Error + A) * Env := m e.

Notation "'do!' x ':=' m 'in' k" := (bind_b m (fun x => k))
  (at level 10, x name, m at level 100, k at level 200).

(** One call of [session.get(url, timeout=10)] followed by [res.json()];
    whatever retries the session's adapter makes happen inside the call and
    are not counted. *)
Definition session_get_json (address : string) : B (option json) := fun e =>
  match http e with
  | [] => (inr None,
           mkEnv (world e) [] (http_log e ++ [address]) (order_answers e)
                 (order_log e) (outbox e))
  | a :: rest => (inr a,
                  mkEnv (world e) rest (http_log e ++ [address])
                        (order_answers e) (order_log e) (outbox e))
  end.

(** [binance.futures_create_order(...)]. *)
Definition futures_create_order (o : Order) : B (option json) := fun e =>
  match order_answers e with
  | [] => (inr None,
           mkEnv (world e) (http e) (http_log e) [] (order_log e ++ [o])
                 (outbox e))
  | a :: rest => (inr a,
                  mkEnv (world e) (http e) (http_log e) rest
                        (order_log e ++ [o]) (outbox e))
  end.

(** [await update.message.reply_text(...)]: the message is handed to
    Telegram; a failure of the delivery itself is not modelled. *)
Definition reply_text (t : Text) (mode : option string) : B unit := fun e =>
  (inr tt,
   mkEnv (world e) (http e) (http_log e) (order_answers e) (order_log e)
         (outbox e ++ [mkMessage t mode])).

(** ** fetch_news *)

Definition news_url (symbol : string) : string :=
  String.append "https://api.coingecko.com/api/v3/coins/"
    (String.append (lower symbol) "/status_updates").

(** The loop [for u in data: news.append({...})]; the first subscript that
    fails ends it with its exception. *)
Fixpoint news_of (data : list json) : Error + list News :=
  match data with
  | [] => inr []
  | u :: rest =>
      match getitem u "created_at" with
      | inl x => inl x
      | inr d =>
          match getitem u "title" with
          | inl x => inl x
          | inr t =>
              match getitem u "user" with
              | inl x => inl x
              | inr user =>
                  match getitem user "twitter_handle" with
                  | inl x => inl x
                  | inr handle =>
                      match news_of rest with
                      | inl x => inl x
                      | inr news => inr (mkNews d t handle :: news)
                      end
                  end
              end
          end
      end
  end.

(** The [try] block: the request, [.get('status_updates', [])] and [[:3]];
    [None] when any of them raises. *)
Definition news_data (res : option json) : option json :=
  match res with
  | None => None
  | Some body =>
      match dict_get body "status_updates" (JList []) with
      | inl _ => None
      | inr updates =>
          match slice_to 3 updates with
          | inl _ => None
          | inr data => Some data
          end
      end
  end.

Definition fetch_news (symbol : string) : B (list News) :=
  do! res := session_get_json (news_url symbol) in
  match news_data res with
  | None => unit_b []
  | Some data => check (news_of (items data))
  end.

(** ** place_order *)

(** The [except] branch logs the error and raises it again. *)
Definition place_order (symbol side : string) (quantity : float) : B json :=
  do! res := futures_create_order (mkOrder symbol side "MARKET" quantity) in
  match res with
  | Some order => unit_b order
  | None => raise_b ExchangeError
  end.

(** ** The handlers *)

(** The settings read from the environment, and Python's [float(...)] on a
    string: [None] where it raises ValueError. *)
Class Settings := mkSettings {
  SYMBOL_DEFAULT : string;
  INTERVAL_DEFAULT : string;
  LOOKBACK_SIGNALS : nat;
  float_of_str : string -> option float
}.

Definition start : B unit := reply_text Greeting None.

Definition plan_signal (info : Plan) : option Direction :=
  match info with
  | trade direction _ _ _ _ => Some direction
  | no_trade => None
  end.

(** [if info.get('signal'): text += ...]. *)
Definition level_lines (info : Plan) : list Line :=
  match info with
  | trade _ entry sl tp r =>
      [EntryLine entry; StopLine sl; TargetLine tp; MomentumLine r]
  | no_trade => []
  end.

(** [for n in news: text += ... {n['date'][:10]}]. *)
Fixpoint news_lines (news : list News) : Error + list Line :=
  match news with
  | [] => inr []
  | n :: rest =>
      match slice_to 10 (date n) with
      | inl x => inl x
      | inr day =>
          match news_lines rest with
          | inl x => inl x
          | inr lines => inr (NewsLine (title n) (url n) day :: lines)
          end
      end
  end.

Section Handlers.
Context {ta : TA} {settings : Settings}.

(** [context.args[0].upper() if context.args else SYMBOL_DEFAULT]. *)
Definition signal_symbol (args : list string) : string :=
  match args with
  | a :: _ => upper a
  | [] => SYMBOL_DEFAULT
  end.

(** The [try] block of [signal_handler]. *)
Definition signal_report (symbol : string) : B Text :=
  do! df := lift (fetch_klines symbol INTERVAL_DEFAULT 500) in
  do! info := lift (analyze_trend df) in
  do! win_rate :=
    lift (calculate_win_rate symbol INTERVAL_DEFAULT LOOKBACK_SIGNALS) in
  do! news := fetch_news (str_drop_last 4 symbol) in
  do! lines := check (news_lines news) in
  unit_b (Report (Headline symbol (plan_signal info)
                  :: level_lines info
                  ++ WinRateLine LOOKBACK_SIGNALS win_rate
                  :: NewsHeader :: lines)).

Definition signal_handler (args : list string) : B unit :=
  let symbol := signal_symbol args in
  do! t := catch (signal_report symbol)
                 (fun _ => unit_b (SignalFailure symbol)) in
  reply_text t (Some "Markdown"%string).

Definition order_handler (args : list string) : B unit :=
  catch
    (match args with
     | [symbol; side; qty] =>
         match float_of_str qty with
         | Some quantity =>
             do! order := place_order (upper symbol) (upper side) quantity in
             do! order_id := check (getitem order "orderId") in
             reply_text (OrderPlaced order_id side quantity symbol) None
         | None => raise_b ValueError
         end
     | _ => raise_b ValueError
     end)
    (fun _ => reply_text OrderUsage None).

End Handlers.



(** ** Notions used by the statements *)

(** What round [i] of the loop decides, read off the indicator columns. *)
Definition crossing (x : Indicators) (i : nat) : option Direction :=
  if flt (cell (EMA_fast x) (i - 1)) (cell (EMA_slow x) (i - 1))
     && fgt (cell (EMA_fast x) i) (cell (EMA_slow x) i)
     && flt (cell (RSI x) i) (num 70)
  then Some LONG
  else if fgt (cell (EMA_fast x) (i - 1)) (cell (EMA_slow x) (i - 1))
          && flt (cell (EMA_fast x) i) (cell (EMA_slow x) i)
          && fgt (cell (RSI x) i) (num 30)
  then Some SHORT
  else None.

(** Two states of a frame with the same four indicator columns. *)
Definition same_indicators (x y : Indicators) : Prop :=
  EMA_fast x = EMA_fast y /\ EMA_slow x = EMA_slow y
  /\ RSI x = RSI y /\ ATR x = ATR y.

(** The two crossover conditions of the specification, as propositions on
    the columns of a frame. *)
Definition crosses_up (x : Indicators) (i : nat) : Prop :=
  fless (cell (EMA_fast x) (i - 1)) (cell (EMA_slow x) (i - 1))
  /\ fless (cell (EMA_slow x) i) (cell (EMA_fast x) i)
  /\ fless (cell (RSI x) i) (num 70).

Definition crosses_down (x : Indicators) (i : nat) : Prop :=
  fless (cell (EMA_slow x) (i - 1)) (cell (EMA_fast x) (i - 1))
  /\ fless (cell (EMA_fast x) i) (cell (EMA_slow x) i)
  /\ fless (num 30) (cell (RSI x) i).

(** The world once [generate_signals] has run on the frame [df] behind
    [r]. *)
Definition after_signals {ta : TA} (w : World) (r : ref) (df : DataFrame)
  : World :=
  mkWorld (<[r := generate_signals_frame df]> (heap w)) (exchange w)
          (requests w).

(** What [attempts] calls of the exchange client bring: the first answer
    that is not an exception, if any, and the number of calls made. *)
Fixpoint pull (attempts : nat) (answers : list (option (list Candle)))
  : option (list Candle) * nat :=
  match attempts with
  | O => (None, O)
  | S k =>
      match answers with
      | Some cs :: _ => (Some cs, 1%nat)
      | None :: rest => let (a, n) := pull k rest in (a, S n)
      | [] => let (a, n) := pull k [] in (a, S n)
      end
  end.

(** The world once [calls] calls of the request [rq] have been made and the
    frames [new] created. *)
Definition after_pull (w : World) (rq : Request) (calls : nat)
  (new : list DataFrame) : World :=
  mkWorld (heap w ++ new) (drop calls (exchange w))
          (requests w ++ replicate calls rq).

(** The levels of a plan, as the specification writes them. *)
Definition stop_of (d : Direction) (entry range : float) : float :=
  match d with
  | LONG => fsub entry range
  | SHORT => fadd entry range
  end.
Definition target_of (d : Direction) (entry range : float) : float :=
  match d with
  | LONG => fadd entry (fmul (num 2) range)
  | SHORT => fsub entry (fmul (num 2) range)
  end.

(** The test of the scoring loop on one selected row. *)
Definition counted (cs : list Candle) (row : Row) : bool :=
  let next_price := cell (shift_back (map close cs)) (index row) in
  (signal_is row LONG && fgt next_price (row_close row))
  || (signal_is row SHORT && flt next_price (row_close row)).

(** A signal at bar [i] wins when bar [i+1] exists and closed above bar [i]
    for LONG, below it for SHORT. *)
Definition won (cs : list Candle) (row : Row) : Prop :=
  exists c next,
    cs !! index row = Some c /\ cs !! S (index row) = Some next
    /\ (row_signal row = Some LONG /\ fless (close c) (close next)
        \/ row_signal row = Some SHORT /\ fless (close next) (close c)).

(** The answer the next call of a collaborator gets. *)
Definition first_answer {A} (answers : list (option A)) : option A :=
  match answers with
  | a :: _ => a
  | [] => None
  end.

(** The environment once the news feed has been asked for [address]. *)
Definition after_get (e : Env) (address : string) : Env :=
  mkEnv (world e) (drop 1 (http e)) (http_log e ++ [address])
        (order_answers e) (order_log e) (outbox e).

(** The environment once the order [o] has been sent. *)
Definition after_order (e : Env) (o : Order) : Env :=
  mkEnv (world e) (http e) (http_log e) (drop 1 (order_answers e))
        (order_log e ++ [o]) (outbox e).

(** The environment once a reply has been sent. *)
Definition after_reply (e : Env) (t : Text) (mode : option string) : Env :=
  mkEnv (world e) (http e) (http_log e) (order_answers e) (order_log e)
        (outbox e ++ [mkMessage t mode]).

(** The environment with the core's world replaced. *)
Definition set_world (e : Env) (w : World) : Env :=
  mkEnv w (http e) (http_log e) (order_answers e) (order_log e) (outbox e).

(** What [fetch_news] makes of the answer of the feed. *)
Definition news_result (res : option json) : Error + list News :=
  match news_data res with
  | None => inr []
  | Some data => news_of (items data)
  end.

(** An update of the feed and the entry [fetch_news] makes of it. *)
Definition entry_of (u : json) (n : News) : Prop :=
  getitem u "created_at" = inr (date n)
  /\ getitem u "title" = inr (title n)
  /\ exists user, getitem u "user" = inr user
                  /\ getitem user "twitter_handle" = inr (url n).

(** Sample environments: a feed of four updates, the last one malformed,
    and an order endpoint that confirms or rejects. *)
Definition update (day name handle : string) : json :=
  JDict [("created_at", JStr day); ("title", JStr name);
         ("user", JDict [("twitter_handle", JStr handle)])]%string.
Definition demo_feed : json :=
  JDict [("status_updates",
          JList [update "2024-05-01T10:00:00Z" "Upgrade" "btc";
                 update "2024-04-30T09:00:00Z" "Listing" "btc_news";
                 update "2024-04-29T08:00:00Z" "Audit" "btc_dev";
                 JNull])]%string.
Definition news_env : Env := mkEnv (mkWorld [] [] []) [Some demo_feed] [] [] [] [].
Definition confirming_env : Env :=
  mkEnv (mkWorld [] [] []) [] []
        [Some (JDict [("orderId", JNum 42)]%string)] [] [].
Definition rejecting_env : Env := mkEnv (mkWorld [] [] []) [] [] [None] [] [].
(** Settings with the defaults of the source; the quantity parser knows one
    literal. *)
Definition demo_settings : Settings :=
  mkSettings "BTCUSDT" "1h" 100
    (fun s => if String.eqb s "0.001" then Some (num (1 # 1000)) else None).
(** An exchange that answers the two pulls of [signal_handler], the first
    at its second attempt, and a feed that answers. *)
Definition signal_env : Env :=
  mkEnv (mkWorld [] [None; Some still_candles; Some edge_candles] [])
        [Some demo_feed] [] [] [] [].

Section Report.
Context {settings : Settings}.

(** The two requests for candles a signal report makes. *)
Definition plan_request (symbol : string) : Request :=
  mkRequest symbol INTERVAL_DEFAULT 500.
Definition rate_request (symbol : string) : Request :=
  mkRequest symbol INTERVAL_DEFAULT (LOOKBACK_SIGNALS + 50).

(** The text of a report, from the plan, the rate and the news lines. *)
Definition report_of (symbol : string) (info : Plan) (rate : float)
  (lines : list Line) : Text :=
  Report (Headline symbol (plan_signal info)
          :: level_lines info
          ++ WinRateLine LOOKBACK_SIGNALS rate :: NewsHeader :: lines).

End Report.



(** * Properties *)

(** ** Floats *)

Lemma Qltb_lt (x y : Q) : Qltb x y = true <-> x < y.
Proof. unfold Qltb, Qlt. apply Z.ltb_lt. Qed.

Lemma flt_fless (a b : float) : flt a b = true <-> fless a b.
Proof.
  destruct a as [x|], b as [y|]; simpl; try apply Qltb_lt;
    split; (discriminate || contradiction).
Qed.

Lemma fgt_fless (a b : float) : fgt a b = true <-> fless b a.
Proof. unfold fgt. apply flt_fless. Qed.

Lemma fless_asym (a b : float) : fless a b -> fless b a -> False.
Proof.
  destruct a as [x|], b as [y|]; simpl; try contradiction.
  intros H1 H2. apply (Qlt_irrefl x). now apply Qlt_trans with y.
Qed.

Lemma fless_feq (a b : float) : feq a b -> ~ fless a b /\ ~ fless b a.
Proof.
  destruct a as [x|], b as [y|]; simpl; try tauto.
  intros E. split; intros H; rewrite E in H; now apply Qlt_irrefl in H.
Qed.

(** ** The labelling loop *)

Lemma loop_body_crossing (x : Indicators) (i : nat) :
  loop_body x i =
  match crossing x i with
  | Some d => set_signal x i d
  | None => x
  end.
Proof.
  unfold loop_body, crossing.
  repeat match goal with |- context [if ?b then _ else _] => destruct b end;
    reflexivity.
Qed.

Lemma crossing_same (x y : Indicators) (i : nat) :
  same_indicators x y -> crossing x i = crossing y i.
Proof.
  intros (E1 & E2 & E3 & _). unfold crossing. now rewrite E1, E2, E3.
Qed.

Lemma loop_body_same (x : Indicators) (i : nat) :
  same_indicators x (loop_body x i).
Proof.
  rewrite loop_body_crossing. destruct (crossing x i); repeat split.
Qed.

Lemma loop_body_length (x : Indicators) (i : nat) :
  length (signal (loop_body x i)) = length (signal x).
Proof.
  rewrite loop_body_crossing. destruct (crossing x i); simpl; trivial.
  apply length_insert.
Qed.

Lemma loop_body_signal (x : Indicators) (i j : nat) :
  (i < length (signal x))%nat ->
  signal (loop_body x i) !! j =
  if decide (i = j)
  then match crossing x i with
       | Some d => Some (Some d)
       | None => signal x !! j
       end
  else signal x !! j.
Proof.
  intros Hi. rewrite loop_body_crossing.
  destruct (crossing x i) as [d|]; simpl.
  - destruct (decide (i = j)) as [->|Hne].
    + now apply list_lookup_insert_eq.
    + now apply list_lookup_insert_ne.
  - now destruct (decide (i = j)).
Qed.

Lemma loop_same (l : list nat) (x : Indicators) :
  same_indicators x (fold_left loop_body l x)
  /\ length (signal (fold_left loop_body l x)) = length (signal x).
Proof.
  revert x. induction l as [|i l IH]; intros x; simpl.
  - repeat split.
  - destruct (IH (loop_body x i)) as [(E1 & E2 & E3 & E4) EL].
    destruct (loop_body_same x i) as (F1 & F2 & F3 & F4).
    split.
    + repeat split; congruence.
    + rewrite EL. apply loop_body_length.
Qed.

(** After a run over distinct rows, a visited row holds what its round
    decided and every other row holds what it held before. *)
Lemma loop_signal (l : list nat) (x : Indicators) (j : nat) :
  NoDup l ->
  Forall (fun i => (i < length (signal x))%nat) l ->
  signal (fold_left loop_body l x) !! j =
  if decide (j ∈ l)
  then match crossing x j with
       | Some d => Some (Some d)
       | None => signal x !! j
       end
  else signal x !! j.
Proof.
  revert x. induction l as [|i l IH]; intros x ND HF; simpl.
  - reflexivity.
  - apply NoDup_cons in ND as [Hnotin ND].
    apply Forall_cons in HF as [Hi HF].
    rewrite IH; trivial.
    2:{ rewrite loop_body_length. exact HF. }
    rewrite <- (crossing_same x (loop_body x i) j (loop_body_same x i)).
    rewrite (loop_body_signal x i j Hi).
    destruct (decide (j ∈ i :: l)) as [Hc|Hc], (decide (j ∈ l)) as [Hin|Hout],
      (decide (i = j)) as [->|Hne]; trivial;
      try (exfalso; apply Hc; apply elem_of_cons; auto; fail);
      try contradiction.
    apply elem_of_cons in Hc as [?|?]; [congruence|contradiction].
Qed.

Section Labelling.
Context {ta : TA}.

Lemma with_indicators_signal (df : DataFrame) :
  signal (with_indicators df) = replicate (len df) None.
Proof. reflexivity. Qed.

Lemma labelled_same (df : DataFrame) :
  same_indicators (with_indicators df) (labelled df).
Proof. apply loop_same. Qed.

Lemma labelled_length (df : DataFrame) :
  length (signal (labelled df)) = len df.
Proof.
  unfold labelled. destruct (loop_same (seq 1 (len df - 1)) (with_indicators df))
    as [_ ->].
  simpl. apply length_replicate.
Qed.

Lemma crossing_labelled (df : DataFrame) (i : nat) :
  crossing (labelled df) i = crossing (with_indicators df) i.
Proof. symmetry. apply crossing_same, labelled_same. Qed.

(** The label of every row: nothing at row 0, the decision of round [i] at
    row [i]. *)
Lemma labelled_signal (df : DataFrame) (i : nat) :
  (i < len df)%nat ->
  signal (labelled df) !! i =
  Some (if (1 <=? i)%nat then crossing (labelled df) i else None).
Proof.
  intros Hi. rewrite crossing_labelled. unfold labelled.
  rewrite loop_signal.
  - rewrite with_indicators_signal, lookup_replicate_2 by exact Hi.
    destruct (decide (i ∈ seq 1 (len df - 1))) as [Hin|Hout].
    + apply elem_of_seq in Hin.
      replace (1 <=? i)%nat with true by (symmetry; apply Nat.leb_le; lia).
      now destruct (crossing (with_indicators df) i).
    + replace (1 <=? i)%nat with false; trivial.
      symmetry. apply Nat.leb_gt.
      destruct (Nat.lt_ge_cases i 1) as [|Hge]; trivial.
      exfalso. apply Hout, elem_of_seq. lia.
  - apply NoDup_seq.
  - apply Forall_forall. intros j Hj%elem_of_seq.
    rewrite with_indicators_signal, length_replicate. lia.
Qed.

Lemma labelled_signal_ge (df : DataFrame) (i : nat) :
  (len df <= i)%nat -> signal (labelled df) !! i = None.
Proof. intros H. apply lookup_ge_None_2. now rewrite labelled_length. Qed.

End Labelling.

Lemma crosses_exclusive (x : Indicators) (i : nat) :
  crosses_up x i -> crosses_down x i -> False.
Proof. intros (H1 & _) (H2 & _). exact (fless_asym _ _ H1 H2). Qed.

Lemma crossing_LONG (x : Indicators) (i : nat) :
  crossing x i = Some LONG <-> crosses_up x i.
Proof.
  unfold crossing, crosses_up.
  rewrite <- !flt_fless, <- !andb_true_iff, andb_assoc. unfold fgt.
  destruct (_ && _ && flt (cell (RSI x) i) (num 70)).
  - tauto.
  - destruct (_ && _ && _); split; congruence.
Qed.

Lemma crossing_SHORT (x : Indicators) (i : nat) :
  crossing x i = Some SHORT <-> crosses_down x i.
Proof.
  split.
  - intros H. assert (Hup : ~ crosses_up x i).
    { intros U%crossing_LONG. congruence. }
    unfold crossing in H. unfold crosses_down.
    rewrite <- !flt_fless, <- !andb_true_iff, andb_assoc.
    destruct (_ && _ && flt (cell (RSI x) i) (num 70)); [congruence|].
    unfold fgt in H. now destruct (_ && _ && _).
  - intros D. assert (Hup : crossing x i <> Some LONG).
    { intros U%crossing_LONG. exact (crosses_exclusive _ _ U D). }
    unfold crossing in *. unfold crosses_down in D.
    rewrite <- !flt_fless, <- !andb_true_iff, andb_assoc in D. unfold fgt.
    destruct (_ && _ && flt (cell (RSI x) i) (num 70)); [congruence|].
    now rewrite D.
Qed.

Lemma crossing_None (x : Indicators) (i : nat) :
  crossing x i = None <-> ~ crosses_up x i /\ ~ crosses_down x i.
Proof.
  rewrite <- crossing_LONG, <- crossing_SHORT.
  destruct (crossing x i) as [[]|]; intuition congruence.
Qed.

Section Signal_rule.
Context {ta : TA}.

(** C1. For a bar [i >= 1] of any candle sequence, [generate_signals]
    labels the bar LONG exactly when the fast EMA was below the slow EMA at
    bar [i-1], is above it at bar [i], and the RSI at bar [i] is below 70;
    SHORT exactly when the fast EMA was above, is below, and the RSI is
    above 30; every other bar, bar 0 and the bars with equal EMAs at either
    end included, carries no signal; the two conditions exclude each other.
    The statement holds whether or not the indicator values are defined: a
    comparison with an undefined value is false. *)
Theorem C1_signal_rule (df : DataFrame) (i : nat) :
  (1 <= i < len df)%nat ->
  let x := labelled df in
  added (generate_signals_frame df) = Some x
  /\ same_indicators (with_indicators df) x
  /\ (signal x !! i = Some (Some LONG) <-> crosses_up x i)
  /\ (signal x !! i = Some (Some SHORT) <-> crosses_down x i)
  /\ (signal x !! i = Some None <-> ~ crosses_up x i /\ ~ crosses_down x i)
  /\ (feq (cell (EMA_fast x) (i - 1)) (cell (EMA_slow x) (i - 1))
      \/ feq (cell (EMA_fast x) i) (cell (EMA_slow x) i) ->
      signal x !! i = Some None)
  /\ signal x !! 0%nat = Some None
  /\ ~ (crosses_up x i /\ crosses_down x i).
Proof.
  intros [H1 Hn] x. subst x.
  assert (Hi : signal (labelled df) !! i = Some (crossing (labelled df) i)).
  { rewrite labelled_signal by exact Hn.
    now replace (1 <=? i)%nat with true by (symmetry; apply Nat.leb_le; lia). }
  split; [reflexivity|]. split; [apply labelled_same|].
  rewrite Hi.
  assert (Hnone : Some (crossing (labelled df) i) = Some None
                  <-> ~ crosses_up (labelled df) i /\ ~ crosses_down (labelled df) i).
  { rewrite <- crossing_None. split; congruence. }
  split.
  { split; [intros E; apply crossing_LONG|intros E%crossing_LONG]; congruence. }
  split.
  { split; [intros E; apply crossing_SHORT|intros E%crossing_SHORT]; congruence. }
  split; [exact Hnone|].
  split.
  { intros Heq. apply Hnone.
    split; intros (A & B & _);
      destruct Heq as [E|E]; apply fless_feq in E; tauto. }
  split.
  { rewrite labelled_signal by lia. reflexivity. }
  intros [U D]. exact (crosses_exclusive _ _ U D).
Qed.


End Signal_rule.

Lemma C1_signal_rule_witness :
  let x := @labelled spec_ta edge_frame in
  added (@generate_signals_frame spec_ta edge_frame) = Some x
  /\ same_indicators (@with_indicators spec_ta edge_frame) x
  /\ (signal x !! 33%nat = Some (Some LONG) <-> crosses_up x 33)
  /\ (signal x !! 33%nat = Some (Some SHORT) <-> crosses_down x 33)
  /\ (signal x !! 33%nat = Some None
      <-> ~ crosses_up x 33 /\ ~ crosses_down x 33)
  /\ (feq (cell (EMA_fast x) (33 - 1)) (cell (EMA_slow x) (33 - 1))
      \/ feq (cell (EMA_fast x) 33) (cell (EMA_slow x) 33) ->
      signal x !! 33%nat = Some None)
  /\ signal x !! 0%nat = Some None
  /\ ~ (crosses_up x 33 /\ crosses_down x 33).
Proof.
  apply (@C1_signal_rule spec_ta edge_frame 33%nat).
  change (len edge_frame) with 38%nat. lia.
Defined.

(** ** Running the program in a world *)

Section Runs.
Context {ta : TA}.

Lemma generate_signals_run (w : World) (r : ref) (df : DataFrame) :
  heap w !! r = Some df ->
  run (generate_signals r) w = (inr r, after_signals w r df).
Proof.
  intros H. unfold run, generate_signals, bind, load, store, ret.
  now rewrite H.
Qed.

Lemma after_signals_lookup (w : World) (r : ref) (df : DataFrame) :
  heap w !! r = Some df ->
  heap (after_signals w r df) !! r = Some (generate_signals_frame df).
Proof.
  intros H. simpl. apply list_lookup_insert_eq.
  now apply lookup_lt_Some with df.
Qed.

Lemma columns_run (w : World) (r : ref) (df : DataFrame) :
  heap w !! r = Some df ->
  run (columns r) (after_signals w r df)
  = (inr (candles df, labelled df), after_signals w r df).
Proof.
  intros H. unfold run, columns, bind, load.
  now rewrite (after_signals_lookup w r df H).
Qed.

Lemma analyze_trend_run (w : World) (r : ref) (df : DataFrame) :
  heap w !! r = Some df ->
  run (analyze_trend r) w
  = (inr (trend (candles df) (labelled df)), after_signals w r df).
Proof.
  intros H. unfold run, analyze_trend, bind.
  pose proof (generate_signals_run w r df H) as G. unfold run in G. rewrite G.
  pose proof (columns_run w r df H) as C. unfold run in C. rewrite C.
  reflexivity.
Qed.

End Runs.

Lemma pull_calls (attempts : nat) (answers : list (option (list Candle))) :
  (snd (pull attempts answers) <= attempts)%nat.
Proof.
  revert answers. induction attempts as [|k IH]; intros answers; simpl.
  - lia.
  - destruct answers as [|[cs|] rest]; simpl; try lia.
    + specialize (IH []). destruct (pull k []). simpl in *. lia.
    + specialize (IH rest). destruct (pull k rest). simpl in *. lia.
Qed.

(** A pull that succeeds made at least one call, and its candles are the
    answer to the last call made. *)
Lemma pull_Some (attempts : nat) (answers : list (option (list Candle)))
  (cs : list Candle) (calls : nat) :
  pull attempts answers = (Some cs, calls) ->
  (1 <= calls)%nat /\ answers !! (calls - 1)%nat = Some (Some cs)
  /\ forall j, (j < calls - 1)%nat -> answers !! j = Some None.
Proof.
  revert answers calls. induction attempts as [|k IH]; intros answers calls; simpl.
  - discriminate.
  - destruct answers as [|[cs'|] rest].
    + destruct (pull k []) as [a n] eqn:E. intros [= -> <-].
      destruct (IH _ _ E) as (_ & H & _). now rewrite lookup_nil in H.
    + intros [= -> <-]. repeat split; trivial. intros j Hj. lia.
    + destruct (pull k rest) as [a n] eqn:E. intros [= -> <-].
      destruct (IH _ _ E) as (H1 & H2 & H3). split; [lia|]. split.
      * replace (S n - 1)%nat with (S (n - 1)) by lia. exact H2.
      * intros [|j] Hj; trivial. simpl. apply H3. lia.
Qed.

Lemma fetch_attempts_run (attempts : nat) (rq : Request) (w : World) :
  run (fetch_attempts attempts rq) w =
  match pull attempts (exchange w) with
  | (Some cs, calls) =>
      (inr (length (heap w)), after_pull w rq calls [mkDataFrame cs None])
  | (None, calls) => (inl ConnectionError, after_pull w rq calls [])
  end.
Proof.
  revert w. induction attempts as [|k IH]; intros [h ex rqs]; simpl.
  - unfold run, raise, after_pull. simpl.
    now rewrite drop_0, !app_nil_r.
  - unfold run, bind, futures_klines. simpl.
    destruct ex as [|[cs|] rest]; simpl.
    + specialize (IH (mkWorld h [] (rqs ++ [rq]))). unfold run in IH.
      rewrite IH. simpl. destruct (pull k []) as [[cs|] n]; unfold after_pull;
        simpl; now rewrite drop_nil, <- app_assoc.
    + unfold alloc, after_pull. simpl. now rewrite drop_0.
    + specialize (IH (mkWorld h rest (rqs ++ [rq]))). unfold run in IH.
      rewrite IH. simpl. destruct (pull k rest) as [[cs|] n]; unfold after_pull;
        simpl; now rewrite <- app_assoc.
Qed.

Section Win_rate_run.
Context {ta : TA}.

(** [calculate_win_rate] is one pull of [lookback + 50] candles followed by
    a computation on the pulled candles alone. *)
Lemma calculate_win_rate_run (symbol interval : string) (lookback : nat)
  (w : World) :
  run (calculate_win_rate symbol interval lookback) w =
  let rq := mkRequest symbol interval (lookback + 50) in
  match pull 3 (exchange w) with
  | (Some cs, calls) =>
      (inr (win_rate cs (labelled (mkDataFrame cs None)) lookback),
       after_pull w rq calls [generate_signals_frame (mkDataFrame cs None)])
  | (None, calls) => (inl ConnectionError, after_pull w rq calls [])
  end.
Proof.
  unfold calculate_win_rate, fetch_klines, run, bind.
  pose proof (fetch_attempts_run 3 (mkRequest symbol interval (lookback + 50)) w)
    as F. unfold run in F. rewrite F. clear F.
  destruct (pull 3 (exchange w)) as [[cs|] calls]; trivial.
  set (df := mkDataFrame cs None).
  set (w1 := after_pull _ _ _ _).
  assert (H : heap w1 !! length (heap w) = Some df).
  { subst w1. simpl. apply list_lookup_middle. reflexivity. }
  pose proof (generate_signals_run w1 _ df H) as G. unfold run in G. rewrite G.
  pose proof (columns_run w1 _ df H) as C. unfold run in C. rewrite C.
  simpl. unfold ret. f_equal. unfold after_signals, after_pull. subst w1. simpl.
  f_equal.
  replace (length (heap w)) with (length (heap w) + 0)%nat at 1 by lia.
  now rewrite insert_app_r.
Qed.

End Win_rate_run.

(** ** The most recent signalled bar *)

Lemma rows_lookup (cs : list Candle) (x : Indicators) (i : nat) :
  rows cs x !! i = row_at x i <$> cs !! i.
Proof. apply list_lookup_imap. Qed.

Lemma filter_none {A} (p : A -> bool) (l : list A) :
  (forall a, a ∈ l -> p a = false) -> List.filter p l = [].
Proof.
  induction l as [|a l IH]; intros H; simpl; trivial.
  rewrite (H a) by (apply elem_of_cons; now left).
  apply IH. intros b Hb. apply H, elem_of_cons. now right.
Qed.

Lemma tail_snoc {A} (l : list A) (a : A) : tail 1 (l ++ [a]) = [a].
Proof.
  unfold tail. rewrite length_app. simpl.
  replace (length l + 1 - 1)%nat with (length l) by lia.
  apply drop_app_length.
Qed.

Lemma has_signal_row_at (x : Indicators) (i : nat) (c : Candle) :
  has_signal (row_at x i c) = true <-> exists d, signal x !! i = Some (Some d).
Proof.
  unfold has_signal, row_at. simpl.
  destruct (signal x !! i) as [[d|]|]; simpl; split; try discriminate; eauto;
    intros [d' H]; discriminate.
Qed.

(** A frame none of whose bars carries a signal has no signalled row. *)
Lemma dropna_nothing (cs : list Candle) (x : Indicators) :
  (forall i, (i < length cs)%nat -> signal x !! i = Some None) ->
  dropna_signal (rows cs x) = [].
Proof.
  intros H. apply filter_none. intros row Hrow.
  apply list_elem_of_lookup in Hrow as [i Hi].
  rewrite rows_lookup in Hi.
  destruct (cs !! i) as [c|] eqn:E; [|discriminate].
  injection Hi as <-. apply lookup_lt_Some in E.
  unfold has_signal, row_at. simpl. now rewrite (H i E).
Qed.

(** When bar [i] carries a signal and no later bar does, the signalled rows
    end with row [i]. *)
Lemma dropna_last (cs : list Candle) (x : Indicators) (i : nat) (c : Candle)
  (d : Direction) :
  cs !! i = Some c ->
  signal x !! i = Some (Some d) ->
  (forall j, (i < j < length cs)%nat -> signal x !! j = Some None) ->
  exists before, dropna_signal (rows cs x) = before ++ [row_at x i c].
Proof.
  intros Hc Hd Hlater.
  pose proof (take_drop_middle cs i c Hc) as Hsplit.
  assert (Hlen : length (take i cs) = i).
  { apply length_take_le. apply lookup_lt_Some in Hc. lia. }
  exists (dropna_signal (rows (take i cs) x)).
  unfold dropna_signal, rows. rewrite <- Hsplit at 1.
  rewrite imap_app, List.filter_app. f_equal.
  rewrite imap_cons. simpl. rewrite Hlen, Nat.add_0_r.
  replace (has_signal (row_at x i c)) with true
    by (symmetry; apply has_signal_row_at; eauto).
  f_equal. apply filter_none. intros row Hrow.
  apply list_elem_of_lookup in Hrow as [k Hk].
  rewrite list_lookup_imap in Hk.
  destruct (drop (S i) cs !! k) as [c'|] eqn:E; [|discriminate].
  injection Hk as <-. simpl.
  rewrite lookup_drop in E. apply lookup_lt_Some in E.
  unfold has_signal, row_at. simpl.
  rewrite (Hlater (i + S k)%nat) by lia. reflexivity.
Qed.

Lemma trend_last (cs : list Candle) (x : Indicators) (i : nat) (c : Candle)
  (d : Direction) :
  cs !! i = Some c ->
  signal x !! i = Some (Some d) ->
  (forall j, (i < j < length cs)%nat -> signal x !! j = Some None) ->
  trend cs x = plan_of (row_at x i c) d.
Proof.
  intros Hc Hd Hlater.
  destruct (dropna_last cs x i c d Hc Hd Hlater) as [before E].
  unfold trend. rewrite E, tail_snoc. simpl. now rewrite Hd.
Qed.

Lemma trend_nothing (cs : list Candle) (x : Indicators) :
  (forall i, (i < length cs)%nat -> signal x !! i = Some None) ->
  trend cs x = no_trade.
Proof. intros H. unfold trend. now rewrite (dropna_nothing cs x H). Qed.

Lemma plan_of_levels (row : Row) (d : Direction) :
  exists sl tp,
    plan_of row d = trade d (row_close row) sl tp (row_RSI row)
    /\ feq sl (stop_of d (row_close row) (row_ATR row))
    /\ feq tp (target_of d (row_close row) (row_ATR row)).
Proof.
  unfold plan_of. eexists _, _. split; [reflexivity|].
  destruct (row_close row) as [e|], (row_ATR row) as [a|], d; simpl;
    split; trivial; ring.
Qed.

Section Plans.
Context {ta : TA}.

(** C4. [analyze_trend] builds its plan from the most recent bar that
    carries a signal: the entry is that bar's close, the stop is the entry
    minus the bar's ATR for LONG and plus the ATR for SHORT, the target is
    the entry plus twice the ATR for LONG and minus twice the ATR for SHORT,
    and the momentum is the bar's RSI. When no bar carries a signal it
    returns the plan without a direction; in both cases it returns. *)
Theorem C4_trade_plan (w : World) (r : ref) (df : DataFrame) :
  heap w !! r = Some df ->
  let x := labelled df in
  exists p w',
    run (analyze_trend r) w = (inr p, w')
    /\ ((forall i, (i < len df)%nat -> signal x !! i = Some None) ->
        p = no_trade)
    /\ (forall i c d,
          candles df !! i = Some c ->
          signal x !! i = Some (Some d) ->
          (forall j, (i < j < len df)%nat -> signal x !! j = Some None) ->
          exists sl tp,
            p = trade d (close c) sl tp (cell (RSI x) i)
            /\ feq sl (stop_of d (close c) (cell (ATR x) i))
            /\ feq tp (target_of d (close c) (cell (ATR x) i))).
Proof.
  intros H x. subst x.
  eexists _, _. split; [apply analyze_trend_run, H|]. split.
  - intros Hnone. now apply trend_nothing.
  - intros i c d Hc Hd Hlater.
    rewrite (trend_last _ _ i c d Hc Hd Hlater).
    apply (plan_of_levels (row_at (labelled df) i c) d).
Qed.


End Plans.

Lemma C4_trade_plan_witness :
  let x := @labelled spec_ta edge_frame in
  exists p w',
    run (@analyze_trend spec_ta 0%nat) edge_heap = (inr p, w')
    /\ ((forall i, (i < len edge_frame)%nat -> signal x !! i = Some None) ->
        p = no_trade)
    /\ (forall i c d,
          candles edge_frame !! i = Some c ->
          signal x !! i = Some (Some d) ->
          (forall j, (i < j < len edge_frame)%nat -> signal x !! j = Some None) ->
          exists sl tp,
            p = trade d (close c) sl tp (cell (RSI x) i)
            /\ feq sl (stop_of d (close c) (cell (ATR x) i))
            /\ feq tp (target_of d (close c) (cell (ATR x) i))).
Proof.
  apply (@C4_trade_plan spec_ta edge_heap 0%nat edge_frame).
  reflexivity.
Defined.

Section Plan_and_frame.
Context {ta : TA}.


(** C7, amended. [analyze_trend] never raises on a frame it is given. When
    the ATR of the most recent signalled bar is undefined, the plan it
    returns carries that bar's direction, close and RSI, and an undefined
    stop and target: no default takes the place of the missing value. *)
Theorem C7_undefined_range (w : World) (r : ref) (df : DataFrame) :
  heap w !! r = Some df ->
  exists p w',
    run (analyze_trend r) w = (inr p, w')
    /\ forall i c d,
         candles df !! i = Some c ->
         signal (labelled df) !! i = Some (Some d) ->
         (forall j, (i < j < len df)%nat ->
                    signal (labelled df) !! j = Some None) ->
         cell (ATR (labelled df)) i = NaN ->
         p = trade d (close c) NaN NaN (cell (RSI (labelled df)) i).
Proof.
  intros H. eexists _, _. split; [apply analyze_trend_run, H|].
  intros i c d Hc Hd Hlater Hnan.
  rewrite (trend_last _ _ i c d Hc Hd Hlater).
  unfold plan_of. simpl. rewrite Hnan.
  now destruct (close c).
Qed.

(** C8, amended. [generate_signals] works in place: it returns the very
    reference it was given, the frame behind it keeps its candles and gains
    the indicator and signal columns, and nothing else changes: no other
    frame, not the exchange, not the log of requests. *)
Theorem C8_in_place (w : World) (r : ref) (df : DataFrame) :
  heap w !! r = Some df ->
  exists w',
    run (generate_signals r) w = (inr r, w')
    /\ heap w' !! r = Some (mkDataFrame (candles df) (Some (labelled df)))
    /\ (forall r', r' <> r -> heap w' !! r' = heap w !! r')
    /\ exchange w' = exchange w
    /\ requests w' = requests w.
Proof.
  intros H. eexists. split; [apply generate_signals_run, H|].
  split; [apply after_signals_lookup, H|].
  split; [|split; reflexivity].
  intros r' Hne. simpl. now apply list_lookup_insert_ne.
Qed.

End Plan_and_frame.



(** After fourteen bars without any range the rolling ATR is zero: the plan
    of the SHORT at bar 46 has its stop and its target at the entry. *)
Example flat_range :
  exists sl tp m,
    fst (run (@analyze_trend spec_ta 0%nat) still_heap)
    = inr (trade SHORT (num 109) sl tp m)
    /\ flt tp (num 109) = false
    /\ flt (num 109) sl = false
    /\ feq (cell (ATR (@labelled spec_ta (mkDataFrame still_candles None))) 46)
           (num 0).
Proof.
  eexists _, _, _. split; [vm_compute; reflexivity|].
  vm_compute. repeat split.
Qed.

(** In doubles, with an entry of 109.0 and an ATR of 1e-15, the stop and the
    target of a LONG are the entry itself. *)
#[warnings="-inexact-float"]
Example absorbed_range :
  levels64 109 1e-15 LONG = (109%float, 109%float)
  /\ PrimFloat.ltb 0 1e-15 = true.
Proof. vm_compute. split; reflexivity. Qed.

Lemma C7_undefined_range_witness :
  let x := @labelled spec_ta gap_frame in
  exists p w',
    run (@analyze_trend spec_ta 0%nat) gap_heap = (inr p, w')
    /\ forall i c d,
         candles gap_frame !! i = Some c ->
         signal x !! i = Some (Some d) ->
         (forall j, (i < j < len gap_frame)%nat -> signal x !! j = Some None) ->
         cell (ATR x) i = NaN ->
         p = trade d (close c) NaN NaN (cell (RSI x) i).
Proof.
  apply (@C7_undefined_range spec_ta gap_heap 0%nat gap_frame).
  reflexivity.
Defined.

(** The high of bar 46 is missing, so is the bar's ATR; the SHORT at that
    bar yields a plan all the same, with an undefined stop and target. *)
Lemma C7_counterexample :
  exists m,
    fst (run (@analyze_trend spec_ta 0%nat) gap_heap)
    = inr (trade SHORT (num 109) NaN NaN m)
    /\ cell (ATR (@labelled spec_ta gap_frame)) 46 = NaN
    /\ signal (@labelled spec_ta gap_frame) !! 46%nat = Some (Some SHORT)
    /\ signal (@labelled spec_ta gap_frame) !! 47%nat = Some None
    /\ len gap_frame = 48%nat.
Proof.
  eexists. split; [vm_compute; reflexivity|].
  vm_compute. repeat split.
Qed.

Lemma C8_in_place_witness :
  exists w',
    run (@generate_signals spec_ta 0%nat) edge_heap = (inr 0%nat, w')
    /\ heap w' !! 0%nat
       = Some (mkDataFrame (candles edge_frame)
                           (Some (@labelled spec_ta edge_frame)))
    /\ (forall r', r' <> 0%nat -> heap w' !! r' = heap edge_heap !! r')
    /\ exchange w' = exchange edge_heap
    /\ requests w' = requests edge_heap.
Proof.
  apply (@C8_in_place spec_ta edge_heap 0%nat edge_frame).
  reflexivity.
Defined.

(** The caller's frame before and after the call: the call returns the
    caller's own reference, and the frame behind it has five more columns. *)
Lemma C8_counterexample :
  heap short_heap !! 0%nat = Some (mkDataFrame (series [100; 101; 99]%Z) None)
  /\ fst (run (@generate_signals spec_ta 0%nat) short_heap) = inr 0%nat
  /\ heap (snd (run (@generate_signals spec_ta 0%nat) short_heap)) !! 0%nat
     = Some (mkDataFrame (series [100; 101; 99]%Z)
               (Some (mkIndicators [NaN; NaN; NaN] [NaN; NaN; NaN]
                                   [NaN; NaN; NaN] [NaN; NaN; NaN]
                                   [None; None; None]))).
Proof. vm_compute. repeat split. Qed.

(** ** Scoring *)

Lemma wins_step_counted (cs : list Candle) (wins : nat) (row : Row) :
  wins_step cs wins row = if counted cs row then S wins else wins.
Proof. reflexivity. Qed.

Lemma count_wins_from (cs : list Candle) (signals : list Row) (n : nat) :
  fold_left (wins_step cs) signals n
  = (n + length (List.filter (counted cs) signals))%nat.
Proof.
  revert n. induction signals as [|row rest IH]; intros n; simpl.
  - lia.
  - rewrite IH, wins_step_counted.
    destruct (counted cs row); simpl; lia.
Qed.

Lemma count_wins_filter (cs : list Candle) (signals : list Row) :
  count_wins cs signals = length (List.filter (counted cs) signals).
Proof. unfold count_wins. now rewrite count_wins_from. Qed.

Lemma cell_shift_back (l : list float) (i : nat) :
  cell (shift_back l) i = cell l (S i).
Proof.
  unfold cell. destruct l as [|a t]; simpl; trivial.
  destruct (Nat.lt_ge_cases i (length t)) as [Hlt|Hge].
  - now rewrite lookup_app_l.
  - rewrite lookup_app_r by exact Hge.
    rewrite (lookup_ge_None_2 t i Hge).
    now destruct (i - length t)%nat as [|[|k]].
Qed.

Lemma cell_close (cs : list Candle) (i : nat) :
  cell (map close cs) i
  = match cs !! i with Some c => close c | None => NaN end.
Proof.
  unfold cell. change (map close cs) with (close <$> cs).
  rewrite list_lookup_fmap. now destruct (cs !! i).
Qed.

Lemma signal_is_eq (row : Row) (d : Direction) :
  signal_is row d = true <-> row_signal row = Some d.
Proof.
  unfold signal_is. destruct (row_signal row) as [[]|], d; simpl;
    split; congruence.
Qed.

(** On a row of the frame, the loop's test is the winning condition. *)
Lemma counted_won (cs : list Candle) (x : Indicators) (row : Row) :
  row ∈ rows cs x -> (counted cs row = true <-> won cs row).
Proof.
  intros Hrow. apply list_elem_of_lookup in Hrow as [i Hi].
  rewrite rows_lookup in Hi.
  destruct (cs !! i) as [c|] eqn:Ec; [|discriminate].
  injection Hi as <-. unfold counted, won. simpl.
  rewrite cell_shift_back, cell_close, orb_true_iff, !andb_true_iff.
  rewrite !signal_is_eq, fgt_fless, flt_fless. simpl.
  destruct (cs !! S i) as [next|] eqn:En.
  - split.
    + intros H. exists c, next. tauto.
    + intros (c' & n' & E1 & E2 & H).
      assert (c' = c) as -> by congruence.
      assert (n' = next) as -> by congruence. tauto.
  - split.
    + intros [[_ H]|[_ H]]; destruct (close c); contradiction.
    + intros (c' & n' & _ & E2 & _). discriminate.
Qed.

Lemma elem_of_tail {A} (n : nat) (l : list A) (a : A) :
  a ∈ tail n l -> a ∈ l.
Proof.
  unfold tail. intros [j Hj]%list_elem_of_lookup.
  rewrite lookup_drop in Hj. apply list_elem_of_lookup. eauto.
Qed.

Lemma length_tail {A} (n : nat) (l : list A) : (length (tail n l) <= n)%nat.
Proof. unfold tail. rewrite length_drop. lia. Qed.

Lemma elem_of_dropna (rs : list Row) (row : Row) :
  row ∈ dropna_signal rs <-> row ∈ rs /\ has_signal row = true.
Proof.
  unfold dropna_signal. rewrite !list_elem_of_In. apply filter_In.
Qed.

Lemma selected_rows (cs : list Candle) (x : Indicators) (lookback : nat)
  (row : Row) :
  row ∈ selected cs x lookback ->
  row ∈ rows cs x /\ exists d, row_signal row = Some d.
Proof.
  intros H%elem_of_tail%elem_of_dropna. destruct H as [H1 H2].
  split; trivial. unfold has_signal in H2.
  destruct (row_signal row); [eauto|discriminate].
Qed.

(** ** Rounding *)

Lemma round_half_even_comp (x y : Q) :
  x == y -> round_half_even x = round_half_even y.
Proof.
  intros E. unfold round_half_even.
  rewrite (Qfloor_comp x y E).
  assert (E' : x - inject_Z (Qfloor y) == y - inject_Z (Qfloor y))
    by now rewrite E.
  now rewrite (Qcompare_comp _ _ E' (1 # 2) (1 # 2) (Qeq_refl _)).
Qed.

Lemma round2_comp (x y : Q) : x == y -> round2 x = round2 y.
Proof.
  intros E. unfold round2.
  rewrite (round_half_even_comp (x * 100) (y * 100)); trivial.
  now rewrite E.
Qed.

(** Rounding to the nearest integer does not leave an interval whose ends
    are integers. *)
Lemma round_half_even_bounds (x : Q) (lo hi : Z) :
  inject_Z lo <= x <= inject_Z hi ->
  (lo <= round_half_even x <= hi)%Z.
Proof.
  intros [Hlo Hhi]. unfold round_half_even.
  pose proof (Qfloor_le x) as Hfl.
  assert (Hge : (lo <= Qfloor x)%Z).
  { rewrite <- (Qfloor_Z lo). now apply Qfloor_resp_le. }
  assert (Hle : (Qfloor x <= hi)%Z).
  { rewrite Zle_Qle. lra. }
  assert (Hup : x - inject_Z (Qfloor x) > 0 -> (Qfloor x + 1 <= hi)%Z).
  { intros Hpos. assert (Hlt : (Qfloor x < hi)%Z) by (rewrite Zlt_Qlt; lra). lia. }
  destruct (Qcompare_spec (x - inject_Z (Qfloor x)) (1 # 2)) as [E|L|G].
  - destruct (Z.even (Qfloor x)); [lia|].
    split; [lia|]. apply Hup. rewrite E. reflexivity.
  - lia.
  - split; [lia|]. apply Hup. lra.
Qed.

Lemma round2_bounds (x : Q) : 0 <= x <= 100 -> 0 <= round2 x <= 100.
Proof.
  intros H. unfold round2.
  destruct (round_half_even_bounds (x * 100) 0 10000) as [H1 H2].
  { change (inject_Z 0) with 0. change (inject_Z 10000) with 10000. lra. }
  rewrite Zle_Qle in H1, H2.
  change (inject_Z 0) with 0 in H1. change (inject_Z 10000) with 10000 in H2.
  set (r := inject_Z (round_half_even (x * 100))) in *.
  split.
  - apply Qle_shift_div_l; lra.
  - apply Qle_shift_div_r; lra.
Qed.

Lemma ratio_bounds (wins n : nat) :
  (wins <= n)%nat -> (0 < n)%nat ->
  0 <= inject_Z (Z.of_nat wins) / inject_Z (Z.of_nat n) * 100 <= 100.
Proof.
  intros Hle Hpos.
  assert (HW : 0 <= inject_Z (Z.of_nat wins)).
  { change 0 with (inject_Z 0). rewrite <- Zle_Qle. lia. }
  assert (HN : 0 < inject_Z (Z.of_nat n)).
  { change 0 with (inject_Z 0). rewrite <- Zlt_Qlt. lia. }
  assert (HWN : inject_Z (Z.of_nat wins) <= inject_Z (Z.of_nat n)).
  { rewrite <- Zle_Qle. lia. }
  set (W := inject_Z (Z.of_nat wins)) in *.
  set (N := inject_Z (Z.of_nat n)) in *.
  assert (H0 : 0 <= W / N) by (apply Qle_shift_div_l; lra).
  assert (H1 : W / N <= 1) by (apply Qle_shift_div_r; lra).
  lra.
Qed.

(** The rate on exact rationals: what [win_rate] returns when no operation
    of the last line rounds. *)
Lemma win_rate_exact (cs : list Candle) (x : Indicators) (lookback : nat) :
  let signals := selected cs x lookback in
  let wins := length (List.filter (counted cs) signals) in
  let sample_size := length signals in
  (forall row, row ∈ signals -> (counted cs row = true <-> won cs row))
  /\ count_wins cs signals = wins
  /\ (sample_size = 0%nat -> win_rate cs x lookback = num 0)
  /\ (sample_size <> 0%nat ->
      win_rate cs x lookback
      = num (round2 (100 * inject_Z (Z.of_nat wins)
                     / inject_Z (Z.of_nat sample_size))))
  /\ exists q, win_rate cs x lookback = num q /\ 0 <= q <= 100.
Proof.
  intros signals wins sample_size.
  assert (Hcount : count_wins cs signals = wins) by apply count_wins_filter.
  split.
  { intros row Hrow. apply (counted_won cs x).
    now apply (selected_rows cs x lookback). }
  split; [exact Hcount|].
  unfold win_rate. fold signals. rewrite Hcount. fold sample_size.
  destruct (Nat.eqb_spec sample_size 0) as [E|N].
  - repeat split; try congruence.
    exists 0. split; [reflexivity|lra].
  - split; [congruence|]. split.
    + intros _. f_equal. apply round2_comp.
      unfold Qdiv. ring.
    + eexists. split; [reflexivity|].
      apply round2_bounds, ratio_bounds; [|lia].
      apply List.filter_length_le.
Qed.

(** ** The rate as Python computes it *)











(** ** A signal on the last bar *)

Lemma flt_NaN_r (a : float) : flt a NaN = false.
Proof. now destruct a. Qed.

Lemma flt_NaN_l (a : float) : flt NaN a = false.
Proof. reflexivity. Qed.

(** A signal on the last bar is selected whenever anything is, and the loop
    never counts it as a win: it stays in the denominator. *)
Lemma last_bar_selected (cs : list Candle) (x : Indicators) (c : Candle)
  (d : Direction) (lookback : nat) :
  cs !! (length cs - 1)%nat = Some c ->
  signal x !! (length cs - 1)%nat = Some (Some d) ->
  (1 <= lookback)%nat ->
  row_at x (length cs - 1) c ∈ selected cs x lookback
  /\ counted cs (row_at x (length cs - 1) c) = false.
Proof.
  intros Hc Hd HL. split.
  - destruct (dropna_last cs x _ c d Hc Hd) as [before E]; [intros j Hj; lia|].
    unfold selected, tail. rewrite E.
    apply list_elem_of_lookup.
    exists (length (before ++ [row_at x (length cs - 1) c])
            - 1 - (length (before ++ [row_at x (length cs - 1) c]) - lookback))%nat.
    rewrite lookup_drop, length_app. simpl.
    replace (_ + _)%nat with (length before + 0)%nat by lia.
    now rewrite lookup_app_r, Nat.add_comm, Nat.add_sub by lia.
  - unfold counted. simpl. rewrite cell_shift_back, cell_close.
    apply lookup_lt_Some in Hc.
    rewrite (lookup_ge_None_2 cs (S (length cs - 1))) by lia.
    unfold fgt. rewrite flt_NaN_r, flt_NaN_l. now rewrite !andb_false_r.
Qed.

(** C3. On [edge_candles], whose only signals are the LONG at bar 33,
    followed by a higher close, and the SHORT at bar 37, the last bar,
    [calculate_win_rate] selects both signals and returns 50.0: the
    last-bar signal, which has no next bar, is not a win but is counted in
    the sample. Leaving it out of both counts would give 100.0. *)
Theorem C3_last_bar_counted :
  let x := @labelled spec_ta edge_frame in
  len edge_frame = 38%nat
  /\ signal x !! 33%nat = Some (Some LONG)
  /\ signal x !! 37%nat = Some (Some SHORT)
  /\ map index (selected edge_candles x 100) = [33; 37]%nat
  /\ count_wins edge_candles (selected edge_candles x 100) = 1%nat
  /\ fst (run (@calculate_win_rate spec_ta "BTCUSDT" "1h" 100) edge_world)
     = inr (num (5000 # 100)).
Proof. vm_compute. repeat split. Qed.

(** ** Short series *)

Lemma cell_replicate (n i : nat) : cell (replicate n NaN) i = NaN.
Proof.
  unfold cell. destruct (replicate n NaN !! i) as [a|] eqn:E; trivial.
  now apply lookup_replicate_1 in E as [-> _].
Qed.




Lemma spec_ema_short (closes : list float) (period i : nat) :
  (length closes < period)%nat -> cell (spec_ema closes period) i = NaN.
Proof.
  intros H. unfold spec_ema.
  replace (length closes <? period)%nat with true
    by (symmetry; now apply Nat.ltb_lt).
  apply cell_replicate.
Qed.




Lemma crossing_no_slow (x : Indicators) (i : nat) :
  (forall j, cell (EMA_slow x) j = NaN) -> crossing x i = None.
Proof.
  intros H. unfold crossing, fgt. rewrite !H.
  now rewrite !flt_NaN_r, !flt_NaN_l, !andb_false_r.
Qed.




(** On exactly thirty bars the slow EMA has its seed at the last bar, and
    the bar is still left without a signal. *)
Example thirty_bars :
  EMA_slow (@labelled spec_ta thirty_frame) !! 29%nat
  = Some (num (3002 # 30))
  /\ signal (@labelled spec_ta thirty_frame) !! 29%nat = Some None.
Proof. vm_compute. split; reflexivity. Qed.

(** ** One pull per evaluation *)

Lemma rows_elem (cs : list Candle) (x : Indicators) (row : Row) :
  row ∈ rows cs x ->
  exists c, cs !! index row = Some c /\ row = row_at x (index row) c.
Proof.
  intros [i Hi]%list_elem_of_lookup. rewrite rows_lookup in Hi.
  destruct (cs !! i) as [c|] eqn:E; [|discriminate].
  injection Hi as <-. simpl. eauto.
Qed.

Section Backtest.
Context {ta : TA}.


(** C10. A call of [calculate_win_rate] with lookback [L] that returns a
    rate asked the exchange for exactly [L + 50] candles and for nothing
    else; every scored signal is a bar of the one answer it got, so that no
    bar outside that answer enters the sample, and the sample has at most
    [L] signals. *)
Theorem C10_window (symbol interval : string) (lookback : nat)
  (w w' : World) (rate : float) :
  run (calculate_win_rate symbol interval lookback) w = (inr rate, w') ->
  exists cs calls,
    let x := labelled (mkDataFrame cs None) in
    (1 <= calls <= 3)%nat
    /\ requests w'
       = requests w
         ++ replicate calls (mkRequest symbol interval (lookback + 50))
    /\ exchange w !! (calls - 1)%nat = Some (Some cs)
    /\ rate = win_rate cs x lookback
    /\ (length (selected cs x lookback) <= lookback)%nat
    /\ (forall row, row ∈ selected cs x lookback ->
          exists c, cs !! index row = Some c
                    /\ row_close row = close c
                    /\ (index row < length cs)%nat)
    /\ ((length cs <= lookback + 50)%nat ->
        forall row, row ∈ selected cs x lookback ->
                    (index row < lookback + 50)%nat).
Proof.
  rewrite (calculate_win_rate_run symbol interval lookback w).
  pose proof (pull_calls 3 (exchange w)) as Hcalls.
  destruct (pull 3 (exchange w)) as [[cs|] calls] eqn:E;
    cbn [fst snd] in Hcalls |- *; [|discriminate].
  intros [= <- <-]. exists cs, calls.
  destruct (pull_Some _ _ _ _ E) as (H1 & H2 & _).
  assert (Hrow : forall row,
             row ∈ selected cs (labelled (mkDataFrame cs None)) lookback ->
             exists c, cs !! index row = Some c
                       /\ row_close row = close c
                       /\ (index row < length cs)%nat).
  { intros row [Hin _]%selected_rows.
    apply rows_elem in Hin as (c & Hc & Hrow).
    exists c. split; [exact Hc|]. split.
    - rewrite Hrow. reflexivity.
    - now apply lookup_lt_Some with c. }
  split; [lia|]. split; [reflexivity|]. split; [exact H2|].
  split; [reflexivity|]. split; [apply length_tail|].
  split; [exact Hrow|].
  intros Hlen row Hin. destruct (Hrow row Hin) as (c & _ & _ & Hlt). lia.
Qed.

End Backtest.


Lemma C10_window_witness :
  exists cs calls,
    let x := @labelled spec_ta (mkDataFrame cs None) in
    (1 <= calls <= 3)%nat
    /\ requests (snd (run (@calculate_win_rate spec_ta "BTCUSDT" "1h" 100)
                          edge_world))
       = requests edge_world
         ++ replicate calls (mkRequest "BTCUSDT" "1h" (100 + 50))
    /\ exchange edge_world !! (calls - 1)%nat = Some (Some cs)
    /\ num (5000 # 100) = win_rate cs x 100
    /\ (length (selected cs x 100) <= 100)%nat
    /\ (forall row, row ∈ selected cs x 100 ->
          exists c, cs !! index row = Some c
                    /\ row_close row = close c
                    /\ (index row < length cs)%nat)
    /\ ((length cs <= 100 + 50)%nat ->
        forall row, row ∈ selected cs x 100 -> (index row < 100 + 50)%nat).
Proof.
  apply (@C10_window spec_ta "BTCUSDT" "1h" 100 edge_world).
  vm_compute. reflexivity.
Defined.

(** * Further properties of the core *)

(** ** The retry loop *)

Lemma pull_found (attempts : nat) (answers : list (option (list Candle)))
  (k : nat) (cs : list Candle) :
  (k < attempts)%nat ->
  answers !! k = Some (Some cs) ->
  (forall j, (j < k)%nat -> answers !! j = Some None) ->
  pull attempts answers = (Some cs, S k).
Proof.
  revert answers k. induction attempts as [|n IH]; intros answers k Hk Hat Hbefore.
  - lia.
  - destruct k as [|k].
    + destruct answers as [|[a|] rest]; simpl in Hat; try discriminate.
      injection Hat as ->. reflexivity.
    + pose proof (Hbefore 0%nat ltac:(lia)) as H0.
      destruct answers as [|[a|] rest]; simpl in H0; try discriminate.
      simpl. rewrite (IH rest k); trivial; [lia|].
      intros j Hj. apply (Hbefore (S j)). lia.
Qed.

Lemma pull_failed (attempts : nat) (answers : list (option (list Candle))) :
  (forall j, (j < attempts)%nat ->
             answers !! j = Some None \/ answers !! j = None) ->
  pull attempts answers = (None, attempts).
Proof.
  revert answers. induction attempts as [|n IH]; intros answers H; trivial.
  simpl. destruct answers as [|[a|] rest].
  - rewrite IH; trivial. intros j _. right. apply lookup_nil.
  - destruct (H 0%nat ltac:(lia)) as [E|E]; discriminate.
  - rewrite IH; trivial. intros j Hj. apply (H (S j)). lia.
Qed.

(** X1. [fetch_klines] asks the exchange at most three times, always with
    the same request. The first answer that is not an exception, if it
    comes within three calls, becomes a new frame without added columns,
    placed behind a fresh reference, every frame already there being kept;
    no call follows it. When three calls fail in a row, or the exchange has
    nothing left to answer, it raises ConnectionError after exactly three
    calls and creates nothing. *)
Theorem X1_fetch_klines_retries (symbol interval : string) (limit : nat)
  (w : World) :
  let rq := mkRequest symbol interval limit in
  let out := run (fetch_klines symbol interval limit) w in
  (forall k cs,
     (k < 3)%nat ->
     exchange w !! k = Some (Some cs) ->
     (forall j, (j < k)%nat -> exchange w !! j = Some None) ->
     out = (inr (length (heap w)),
            mkWorld (heap w ++ [mkDataFrame cs None])
                    (drop (S k) (exchange w))
                    (requests w ++ replicate (S k) rq)))
  /\ ((forall j, (j < 3)%nat ->
                 exchange w !! j = Some None \/ exchange w !! j = None) ->
      out = (inl ConnectionError,
             mkWorld (heap w) (drop 3 (exchange w))
                     (requests w ++ replicate 3 rq))).
Proof.
  intros rq out. subst out. unfold fetch_klines. rewrite fetch_attempts_run.
  fold rq. split.
  - intros k cs Hk Hat Hbefore.
    now rewrite (pull_found 3 (exchange w) k cs Hk Hat Hbefore).
  - intros Hfail. rewrite (pull_failed 3 (exchange w) Hfail).
    unfold after_pull. now rewrite app_nil_r.
Qed.

Section More_core.
Context {ta : TA}.

(** X3. With a lookback of zero, when the pulled series has at most one
    candle, or when no bar of it carries a signal, the win rate is 0.0:
    nothing is selected and the division is not attempted. A rate of 0.0
    therefore does not tell "no signal" from "no win". *)
Theorem X3_empty_sample (cs : list Candle) (lookback : nat) :
  lookback = 0%nat
  \/ (length cs <= 1)%nat
  \/ (forall i, (i < length cs)%nat ->
                signal (labelled (mkDataFrame cs None)) !! i = Some None) ->
  win_rate cs (labelled (mkDataFrame cs None)) lookback = num 0.
Proof.
  intros H.
  assert (E : selected cs (labelled (mkDataFrame cs None)) lookback = []).
  { unfold selected. destruct H as [->|[Hshort|Hnone]].
    - unfold tail. rewrite Nat.sub_0_r. apply drop_all.
    - rewrite dropna_nothing; trivial.
      intros i Hi. rewrite labelled_signal by exact Hi.
      now replace (1 <=? i)%nat with false
        by (symmetry; apply Nat.leb_gt; lia).
    - now rewrite dropna_nothing. }
  unfold win_rate. now rewrite E.
Qed.

(** X4. Running [generate_signals] a second time on the frame it returned
    changes nothing: the columns are computed anew from the candle columns
    and the signal column is reset before the loop. *)
Theorem X4_generate_signals_twice (w : World) (r : ref) (df : DataFrame) :
  heap w !! r = Some df ->
  run (let! r1 := generate_signals r in generate_signals r1) w
  = run (generate_signals r) w.
Proof.
  intros H. unfold run, bind.
  pose proof (generate_signals_run w r df H) as G. unfold run in G. rewrite G.
  pose proof (generate_signals_run (after_signals w r df) r
                (generate_signals_frame df) (after_signals_lookup w r df H)) as G2.
  unfold run in G2. rewrite G2. f_equal.
  unfold after_signals. simpl. f_equal. apply list_insert_insert_eq.
Qed.

End More_core.

Lemma X3_empty_sample_witness :
  win_rate edge_candles (@labelled spec_ta (mkDataFrame edge_candles None)) 0
  = num 0.
Proof.
  apply (@X3_empty_sample spec_ta edge_candles 0%nat).
  left. reflexivity.
Defined.

Lemma X4_generate_signals_twice_witness :
  run (let! r1 := @generate_signals spec_ta 0%nat in
       @generate_signals spec_ta r1) edge_heap
  = run (@generate_signals spec_ta 0%nat) edge_heap.
Proof.
  apply (@X4_generate_signals_twice spec_ta edge_heap 0%nat edge_frame).
  reflexivity.
Defined.


(** * Properties of the bot *)

(** ** Running the collaborators *)

Lemma session_get_json_run (address : string) (e : Env) :
  run_b (session_get_json address) e
  = (inr (first_answer (http e)), after_get e address).
Proof.
  unfold run_b, session_get_json, after_get.
  destruct (http e) as [|a rest]; reflexivity.
Qed.

Lemma futures_create_order_run (o : Order) (e : Env) :
  run_b (futures_create_order o) e
  = (inr (first_answer (order_answers e)), after_order e o).
Proof.
  unfold run_b, futures_create_order, after_order.
  destruct (order_answers e) as [|a rest]; reflexivity.
Qed.

Lemma fetch_news_run (symbol : string) (e : Env) :
  run_b (fetch_news symbol) e
  = (news_result (first_answer (http e)), after_get e (news_url symbol)).
Proof.
  unfold run_b, fetch_news, bind_b.
  pose proof (session_get_json_run (news_url symbol) e) as G.
  unfold run_b in G. rewrite G. unfold news_result.
  destruct (news_data (first_answer (http e))) as [data|]; trivial.
  unfold check. now destruct (news_of (items data)).
Qed.

(** ** fetch_news *)

Lemma news_of_entries (data : list json) (news : list News) :
  news_of data = inr news <-> Forall2 entry_of data news.
Proof.
  revert news. induction data as [|u rest IH]; intros news; simpl.
  - split.
    + intros [= <-]. constructor.
    + intros H. inversion H. reflexivity.
  - split.
    + destruct (getitem u "created_at") as [?|d] eqn:Ed; [discriminate|].
      destruct (getitem u "title") as [?|t] eqn:Et; [discriminate|].
      destruct (getitem u "user") as [?|usr] eqn:Eu; [discriminate|].
      destruct (getitem usr "twitter_handle") as [?|h] eqn:Eh; [discriminate|].
      destruct (news_of rest) as [?|tl] eqn:Er; [discriminate|].
      intros [= <-]. constructor.
      * unfold entry_of. simpl. split; [exact Ed|]. split; [exact Et|].
        exists usr. now split.
      * now apply IH.
    + intros H. inversion H as [|u' n rest' tl (E1 & E2 & usr & E3 & E4) Htl];
        subst.
      rewrite E1, E2, E3, E4. apply IH in Htl. rewrite Htl.
      now destruct n.
Qed.

Lemma news_of_length (data : list json) (news : list News) :
  news_of data = inr news -> length news = length data.
Proof.
  intros H%news_of_entries. symmetry. eapply Forall2_length, H.
Qed.

Lemma news_of_error (data : list json) (x : Error) :
  news_of data = inl x -> x = MissingKey \/ x = TypeError.
Proof.
  assert (G : forall u k y, getitem u k = inl y -> y = MissingKey \/ y = TypeError).
  { intros u k y. unfold getitem. destruct u; try (intros [= <-]; now right).
    destruct (assoc k d); [discriminate|]. intros [= <-]. now left. }
  induction data as [|u rest IH]; simpl; [discriminate|].
  destruct (getitem u "created_at") as [y|d] eqn:E1;
    [intros [= <-]; exact (G _ _ _ E1)|].
  destruct (getitem u "title") as [y|t] eqn:E2;
    [intros [= <-]; exact (G _ _ _ E2)|].
  destruct (getitem u "user") as [y|usr] eqn:E3;
    [intros [= <-]; exact (G _ _ _ E3)|].
  destruct (getitem usr "twitter_handle") as [y|h] eqn:E4;
    [intros [= <-]; exact (G _ _ _ E4)|].
  destruct (news_of rest) as [y|tl]; [|discriminate].
  intros [= <-]. now apply IH.
Qed.

Lemma news_result_length (res : option json) (news : list News) :
  news_result res = inr news -> (length news <= 3)%nat.
Proof.
  unfold news_result, news_data.
  destruct res as [body|]; [|intros [= <-]; simpl; lia].
  destruct (dict_get body "status_updates" (JList [])) as [?|updates];
    [intros [= <-]; simpl; lia|].
  destruct updates as [| | |s|l|d]; simpl;
    try (intros [= <-]; simpl; lia).
  - destruct (list_ascii_of_string (str_take 3 s)) as [|c cs]; simpl.
    + intros [= <-]. simpl. lia.
    + discriminate.
  - intros H%news_of_length. rewrite H, length_take. lia.
Qed.

(** X7. [fetch_news] calls [session.get] exactly once, with the address
    built from the lower-cased symbol, and touches nothing else. It returns
    at most three entries. When the request raises, when the body is not a dict or
    has no 'status_updates', it returns the empty list instead of raising;
    the only exceptions that leave it are a KeyError or a TypeError from a
    malformed update. *)
Theorem X7_fetch_news_bounded (symbol : string) (e : Env) :
  let out := run_b (fetch_news symbol) e in
  snd out = after_get e (news_url symbol)
  /\ match fst out with
     | inr news => (length news <= 3)%nat
     | inl x => x = MissingKey \/ x = TypeError
     end
  /\ (first_answer (http e) = None -> fst out = inr [])
  /\ (forall body,
        first_answer (http e) = Some body ->
        (forall d, body <> JDict d) -> fst out = inr [])
  /\ (forall d,
        first_answer (http e) = Some (JDict d) ->
        assoc "status_updates" d = None -> fst out = inr []).
Proof.
  intros out. subst out. rewrite fetch_news_run. cbn [fst snd].
  split; [reflexivity|]. split.
  { destruct (news_result (first_answer (http e))) as [x|news] eqn:E.
    - unfold news_result in E.
      destruct (news_data _) as [data|]; [|discriminate].
      exact (news_of_error _ _ E).
    - exact (news_result_length _ _ E). }
  split; [intros ->; reflexivity|]. split.
  - intros body -> Hnot. unfold news_result, news_data, dict_get.
    destruct body; trivial. now elim (Hnot d).
  - intros d -> Hnone. unfold news_result, news_data, dict_get.
    now rewrite Hnone.
Qed.

(** X8. When the feed answers with a dict whose 'status_updates' is a list,
    [fetch_news] returns a list exactly when each of the first three
    updates is a dict with 'created_at', 'title' and a 'user' dict with
    'twitter_handle'; the list has one entry per such update, in the order
    of the feed, carrying these three values. Updates after the third are
    never looked at: a feed with the same first three updates gives the
    same result. *)
Theorem X8_fetch_news_first_three (symbol : string) (e : Env)
  (d : list (string * json)) (updates : list json) :
  first_answer (http e) = Some (JDict d) ->
  assoc "status_updates" d = Some (JList updates) ->
  (forall news,
     fst (run_b (fetch_news symbol) e) = inr news
     <-> Forall2 entry_of (take 3 updates) news)
  /\ forall others,
       take 3 others = take 3 updates ->
       fst (run_b (fetch_news symbol)
                  (mkEnv (world e)
                         [Some (JDict [("status_updates"%string,
                                        JList others)])]
                         (http_log e) (order_answers e) (order_log e)
                         (outbox e)))
       = fst (run_b (fetch_news symbol) e).
Proof.
  intros Hbody Hupd. split.
  - intros news. rewrite fetch_news_run. cbn [fst].
    unfold news_result, news_data, dict_get. rewrite Hbody, Hupd. simpl.
    apply news_of_entries.
  - intros others Hsame. rewrite !fetch_news_run. cbn [fst http].
    unfold news_result, news_data, dict_get. rewrite Hbody, Hupd. simpl.
    now rewrite Hsame.
Qed.

Example fetch_news_sample :
  fst (run_b (fetch_news "BTC") news_env)
  = inr [mkNews (JStr "2024-05-01T10:00:00Z") (JStr "Upgrade") (JStr "btc");
         mkNews (JStr "2024-04-30T09:00:00Z") (JStr "Listing") (JStr "btc_news");
         mkNews (JStr "2024-04-29T08:00:00Z") (JStr "Audit") (JStr "btc_dev")]
  /\ http_log (snd (run_b (fetch_news "BTC") news_env))
     = ["https://api.coingecko.com/api/v3/coins/btc/status_updates"%string].
Proof. split; reflexivity. Qed.

Lemma X8_fetch_news_first_three_witness :
  (forall news,
     fst (run_b (fetch_news "BTC") news_env) = inr news
     <-> Forall2 entry_of
           (take 3 [update "2024-05-01T10:00:00Z" "Upgrade" "btc";
                    update "2024-04-30T09:00:00Z" "Listing" "btc_news";
                    update "2024-04-29T08:00:00Z" "Audit" "btc_dev";
                    JNull])
           news)
  /\ forall others,
       take 3 others
       = take 3 [update "2024-05-01T10:00:00Z" "Upgrade" "btc";
                 update "2024-04-30T09:00:00Z" "Listing" "btc_news";
                 update "2024-04-29T08:00:00Z" "Audit" "btc_dev";
                 JNull] ->
       fst (run_b (fetch_news "BTC")
                  (mkEnv (world news_env)
                         [Some (JDict [("status_updates"%string,
                                        JList others)])]
                         (http_log news_env) (order_answers news_env)
                         (order_log news_env) (outbox news_env)))
       = fst (run_b (fetch_news "BTC") news_env).
Proof.
  apply (X8_fetch_news_first_three "BTC" news_env
           [("status_updates"%string,
             JList [update "2024-05-01T10:00:00Z" "Upgrade" "btc";
                    update "2024-04-30T09:00:00Z" "Listing" "btc_news";
                    update "2024-04-29T08:00:00Z" "Audit" "btc_dev";
                    JNull])]).
  - reflexivity.
  - reflexivity.
Defined.

(** ** Orders *)

Lemma place_order_run (symbol side : string) (quantity : float) (e : Env) :
  run_b (place_order symbol side quantity) e
  = (match first_answer (order_answers e) with
     | Some order => inr order
     | None => inl ExchangeError
     end,
     after_order e (mkOrder symbol side "MARKET" quantity)).
Proof.
  unfold run_b, place_order, bind_b.
  pose proof (futures_create_order_run (mkOrder symbol side "MARKET" quantity) e)
    as G. unfold run_b in G. rewrite G.
  now destruct (first_answer (order_answers e)).
Qed.

Section Order_handler.
Context {settings : Settings}.

(** What [order_handler] does once its three arguments are split and the
    quantity is parsed. *)
Lemma order_handler_run (symbol side qty : string) (quantity : float)
  (e : Env) :
  float_of_str qty = Some quantity ->
  let e1 := after_order e (mkOrder (upper symbol) (upper side) "MARKET" quantity) in
  run_b (order_handler [symbol; side; qty]) e
  = match first_answer (order_answers e) with
    | Some order =>
        match getitem order "orderId" with
        | inr order_id =>
            (inr tt,
             after_reply e1 (OrderPlaced order_id side quantity symbol) None)
        | inl _ => (inr tt, after_reply e1 OrderUsage None)
        end
    | None => (inr tt, after_reply e1 OrderUsage None)
    end.
Proof.
  intros Hq e1. unfold run_b, order_handler, catch, bind_b. rewrite Hq.
  pose proof (place_order_run (upper symbol) (upper side) quantity e) as P.
  unfold run_b in P. rewrite P. fold e1.
  destruct (first_answer (order_answers e)) as [order|]; trivial.
  unfold check. now destruct (getitem order "orderId").
Qed.

Lemma order_handler_usage (args : list string) (e : Env) :
  (length args <> 3%nat
   \/ exists symbol side qty,
        args = [symbol; side; qty] /\ float_of_str qty = None) ->
  run_b (order_handler args) e = (inr tt, after_reply e OrderUsage None).
Proof.
  intros [Hlen|(symbol & side & qty & -> & Hq)].
  - unfold run_b, order_handler, catch.
    destruct args as [|a [|b [|c [|d rest]]]]; trivial. now elim Hlen.
  - unfold run_b, order_handler, catch. now rewrite Hq.
Qed.

(** X9. [order_handler] sends at most one order per command, always of
    type MARKET, and never turns to the candle exchange or to the news
    feed. With other than three arguments, or a quantity that [float]
    rejects, it does nothing but answer with the usage text: no order is
    sent. *)
Theorem X9_order_handler_orders (args : list string) (e : Env) :
  let out := run_b (order_handler args) e in
  (order_log (snd out) = order_log e
   \/ exists o, order_log (snd out) = order_log e ++ [o]
                /\ order_type o = "MARKET"%string)
  /\ world (snd out) = world e
  /\ http (snd out) = http e
  /\ http_log (snd out) = http_log e
  /\ (length args <> 3%nat
      \/ (exists symbol side qty,
            args = [symbol; side; qty] /\ float_of_str qty = None) ->
      run_b (order_handler args) e = run_b (reply_text OrderUsage None) e).
Proof.
  intros out. subst out.
  refine ((fun H4 => conj (proj1 H4) (conj (proj1 (proj2 H4))
            (conj (proj1 (proj2 (proj2 H4)))
               (conj (proj2 (proj2 (proj2 H4))) _)))) _).
  { intros H. now rewrite order_handler_usage. }
  assert (Hcases : length args <> 3%nat
                   \/ exists symbol side qty, args = [symbol; side; qty]).
  { destruct args as [|a [|b [|c [|d rest]]]]; simpl; try (left; lia).
    right. eauto. }
  destruct Hcases as [Hlen|(symbol & side & qty & ->)].
  - rewrite order_handler_usage by (now left). cbn [fst snd].
    split; [now left|]. repeat split.
  - destruct (float_of_str qty) as [quantity|] eqn:Hq.
    + rewrite (order_handler_run symbol side qty quantity e Hq).
      destruct (first_answer (order_answers e)) as [order|];
        [destruct (getitem order "orderId") as [x|order_id]|];
        cbn [fst snd];
        (split; [right; eexists; split; reflexivity|]);
        repeat split.
    + rewrite order_handler_usage by (right; eauto). cbn [fst snd].
      split; [now left|]. repeat split.
Qed.

(** X10. With three arguments, a quantity that [float] accepts and an
    exchange that answers with a dict holding 'orderId', [order_handler]
    sends one MARKET order with the symbol and the side in upper case and
    the parsed quantity, and confirms with the order's id and the symbol
    and side as the user typed them. *)
Theorem X10_order_placed (symbol side qty : string) (quantity : float)
  (e : Env) (order : json) (order_id : json) :
  float_of_str qty = Some quantity ->
  first_answer (order_answers e) = Some order ->
  getitem order "orderId" = inr order_id ->
  run_b (order_handler [symbol; side; qty]) e
  = (inr tt,
     after_reply
       (after_order e (mkOrder (upper symbol) (upper side) "MARKET" quantity))
       (OrderPlaced order_id side quantity symbol) None).
Proof.
  intros Hq Ha Hid. rewrite (order_handler_run symbol side qty quantity e Hq).
  now rewrite Ha, Hid.
Qed.

(** X11. Once the order is sent, whatever goes wrong ends in the usage
    text: when the exchange rejects the order or does not answer, the order
    is not sent a second time; when the exchange accepts it but its answer
    has no 'orderId', the order stays placed and the user is not told. *)
Theorem X11_order_failure (symbol side qty : string) (quantity : float)
  (e : Env) :
  float_of_str qty = Some quantity ->
  (first_answer (order_answers e) = None
   \/ exists order x, first_answer (order_answers e) = Some order
                      /\ getitem order "orderId" = inl x) ->
  run_b (order_handler [symbol; side; qty]) e
  = (inr tt,
     after_reply
       (after_order e (mkOrder (upper symbol) (upper side) "MARKET" quantity))
       OrderUsage None).
Proof.
  intros Hq H. rewrite (order_handler_run symbol side qty quantity e Hq).
  destruct H as [->|(order & x & -> & ->)]; reflexivity.
Qed.

End Order_handler.

Lemma X10_order_placed_witness :
  run_b (@order_handler demo_settings ["btcusdt"; "buy"; "0.001"]%string)
        confirming_env
  = (inr tt,
     after_reply
       (after_order confirming_env
          (mkOrder (upper "btcusdt") (upper "buy") "MARKET" (num (1 # 1000))))
       (OrderPlaced (JNum 42) "buy" (num (1 # 1000)) "btcusdt") None).
Proof.
  apply (@X10_order_placed demo_settings "btcusdt" "buy" "0.001"
           (num (1 # 1000)) confirming_env
           (JDict [("orderId"%string, JNum 42)]) (JNum 42)).
  - reflexivity.
  - reflexivity.
  - reflexivity.
Defined.

Lemma X11_order_failure_witness :
  run_b (@order_handler demo_settings ["btcusdt"; "buy"; "0.001"]%string)
        rejecting_env
  = (inr tt,
     after_reply
       (after_order rejecting_env
          (mkOrder (upper "btcusdt") (upper "buy") "MARKET" (num (1 # 1000))))
       OrderUsage None).
Proof.
  apply (@X11_order_failure demo_settings "btcusdt" "buy" "0.001"
           (num (1 # 1000)) rejecting_env).
  - reflexivity.
  - left. reflexivity.
Defined.

Example order_sample :
  order_log (snd (run_b (@order_handler demo_settings
                           ["btcusdt"; "buy"; "0.001"]%string)
                        confirming_env))
  = [mkOrder "BTCUSDT" "BUY" "MARKET" (num (1 # 1000))].
Proof. reflexivity. Qed.

(** ** The signal handler *)

Lemma lift_run {A} (m : M A) (e : Env) :
  run_b (lift m) e
  = (match fst (run m (world e)) with
     | inr a => inr a
     | inl x => inl (Core x)
     end,
     set_world e (snd (run m (world e)))).
Proof.
  unfold run_b, lift, run, set_world. now destruct (fst (m (world e))).
Qed.

(** One step of a handler that runs a computation of the core. *)
Ltac lift_step :=
  unfold bind_b at 1;
  match goal with
  | |- context [lift ?m ?env] =>
      let L := fresh in
      pose proof (lift_run m env) as L; unfold run_b in L; rewrite L; clear L
  end;
  cbn [world set_world http http_log order_answers order_log outbox].

Section Signal_handler.
Context {ta : TA} {settings : Settings}.

(** The [try] block of [signal_handler], step by step: the pull for the
    plan, the plan, the pull for the rate, the rate, the news. *)
Lemma signal_report_run (symbol : string) (e : Env) :
  run_b (signal_report symbol) e
  = let w := world e in
    match pull 3 (exchange w) with
    | (None, c1) =>
        (inl (Core ConnectionError),
         set_world e (after_pull w (plan_request symbol) c1 []))
    | (Some cs1, c1) =>
        let df1 := mkDataFrame cs1 None in
        let w2 := mkWorld (heap w ++ [generate_signals_frame df1])
                          (drop c1 (exchange w))
                          (requests w ++ replicate c1 (plan_request symbol)) in
        match pull 3 (drop c1 (exchange w)) with
        | (None, c2) =>
            (inl (Core ConnectionError),
             set_world e (after_pull w2 (rate_request symbol) c2 []))
        | (Some cs2, c2) =>
            let df2 := mkDataFrame cs2 None in
            let e3 :=
              after_get
                (set_world e
                   (after_pull w2 (rate_request symbol) c2
                      [generate_signals_frame df2]))
                (news_url (str_drop_last 4 symbol)) in
            match news_result (first_answer (http e)) with
            | inl x => (inl x, e3)
            | inr news =>
                match news_lines news with
                | inl x => (inl x, e3)
                | inr lines =>
                    (inr (report_of symbol (trend cs1 (labelled df1))
                            (win_rate cs2 (labelled df2) LOOKBACK_SIGNALS)
                            lines),
                     e3)
                end
            end
        end
    end.
Proof.
  unfold signal_report. unfold run_b at 1.
  lift_step. unfold fetch_klines. rewrite fetch_attempts_run.
  fold (plan_request symbol). cbv zeta.
  destruct (pull 3 (exchange (world e))) as [[cs1|] c1]; cbn [fst snd]; trivial.
  set (df1 := mkDataFrame cs1 None).
  set (w1 := after_pull (world e) (plan_request symbol) c1 [df1]).
  assert (H1 : heap w1 !! length (heap (world e)) = Some df1).
  { subst w1. simpl. apply list_lookup_middle. reflexivity. }
  lift_step. rewrite (analyze_trend_run w1 _ df1 H1). cbn [fst snd].
  assert (E2 : after_signals w1 (length (heap (world e))) df1
               = mkWorld (heap (world e) ++ [generate_signals_frame df1])
                         (drop c1 (exchange (world e)))
                         (requests (world e)
                          ++ replicate c1 (plan_request symbol))).
  { unfold after_signals. subst w1. simpl. f_equal.
    replace (length (heap (world e)))
      with (length (heap (world e)) + 0)%nat at 1 by lia.
    now rewrite insert_app_r. }
  rewrite E2. clear E2 H1.
  set (w2 := mkWorld _ _ _).
  lift_step.
  rewrite (calculate_win_rate_run symbol INTERVAL_DEFAULT LOOKBACK_SIGNALS w2).
  fold (rate_request symbol). cbv zeta.
  change (exchange w2) with (drop c1 (exchange (world e))).
  destruct (pull 3 (drop c1 (exchange (world e)))) as [[cs2|] c2];
    cbn [fst snd]; trivial.
  unfold bind_b at 1.
  match goal with
  | |- context [fetch_news ?s ?env] =>
      let L := fresh in
      pose proof (fetch_news_run s env) as L; unfold run_b in L; rewrite L;
      clear L
  end.
  cbn [world set_world http http_log order_answers order_log outbox].
  destruct (news_result (first_answer (http e))) as [x|news]; trivial.
  unfold bind_b, check.
  destruct (news_lines news) as [x|lines]; reflexivity.
Qed.

Lemma signal_handler_run (args : list string) (e : Env) :
  run_b (signal_handler args) e
  = let symbol := signal_symbol args in
    let out := run_b (signal_report symbol) e in
    (inr tt,
     after_reply (snd out)
       (match fst out with
        | inr t => t
        | inl _ => SignalFailure symbol
        end)
       (Some "Markdown"%string)).
Proof.
  unfold signal_handler. cbv zeta. unfold run_b at 1, bind_b, catch.
  unfold run_b. destruct (signal_report (signal_symbol args) e) as [[x|t] e'];
    reflexivity.
Qed.

End Signal_handler.

Lemma pull_positive (attempts : nat) (answers : list (option (list Candle))) :
  (1 <= snd (pull (S attempts) answers))%nat.
Proof.
  simpl. destruct answers as [|[cs|] rest]; simpl; try lia.
  - destruct (pull attempts []). simpl. lia.
  - destruct (pull attempts rest). simpl. lia.
Qed.

Section Signal_handler_properties.
Context {ta : TA} {settings : Settings}.

(** X12. Whatever happens while the candles are pulled, the plan and the
    rate computed, the news fetched and the text built, [signal_handler]
    goes on to its one call of [reply_text], in Markdown, having sent no
    reply before: an exception of the [try] block is caught there. The text
    it hands over is the report or the failure text naming the symbol. The
    symbol is the first argument in upper case, or SYMBOL_DEFAULT when
    there is no argument. No order is ever sent. *)
Theorem X12_signal_handler_replies (args : list string) (e : Env) :
  let symbol := signal_symbol args in
  exists t e',
    run_b (signal_handler args) e
    = run_b (reply_text t (Some "Markdown"%string)) e'
    /\ (t = SignalFailure symbol
        \/ exists info rate lines, t = report_of symbol info rate lines)
    /\ outbox e' = outbox e
    /\ order_log e' = order_log e
    /\ order_answers e' = order_answers e
    /\ (args = [] -> symbol = SYMBOL_DEFAULT)
    /\ (forall a rest, args = a :: rest -> symbol = upper a).
Proof.
  intros symbol. rewrite signal_handler_run. cbv zeta. fold symbol.
  rewrite signal_report_run. cbv zeta.
  assert (Hsym : (args = [] -> symbol = SYMBOL_DEFAULT)
                 /\ (forall a rest, args = a :: rest -> symbol = upper a)).
  { split; [intros ->|intros a rest ->]; reflexivity. }
  destruct (pull 3 (exchange (world e))) as [[cs1|] c1];
    [destruct (pull 3 (drop c1 (exchange (world e)))) as [[cs2|] c2];
     [destruct (news_result (first_answer (http e))) as [x|news];
      [|destruct (news_lines news) as [x|lines]]|]|];
    cbn [fst snd]; eexists _, _;
    (split; [reflexivity|]);
    (split; [first [left; reflexivity
                   |right; eexists _, _, _; reflexivity]|]);
    (split; [reflexivity|]); (split; [reflexivity|]);
    (split; [reflexivity|]); exact Hsym.
Qed.

(** X13. [signal_handler] asks the exchange for candles in two separate
    pulls: at most three requests for 500 candles, for the plan, then at
    most three requests for LOOKBACK_SIGNALS + 50 candles, for the win
    rate, all for the same symbol and interval. It asks the feed for news
    at most once, with the symbol less its last four characters, and only
    after the second pull was requested. A report is sent only when each
    of the three was requested. *)
Theorem X13_signal_handler_requests (args : list string) (e : Env) :
  let symbol := signal_symbol args in
  let out := run_b (signal_handler args) e in
  exists c1 c2 c3,
    (1 <= c1 <= 3)%nat /\ (c2 <= 3)%nat /\ (c3 <= 1)%nat
    /\ requests (world (snd out))
       = requests (world e) ++ replicate c1 (plan_request symbol)
         ++ replicate c2 (rate_request symbol)
    /\ exchange (world (snd out)) = drop (c1 + c2) (exchange (world e))
    /\ http_log (snd out)
       = http_log e ++ replicate c3 (news_url (str_drop_last 4 symbol))
    /\ (c3 = 1%nat -> (1 <= c2)%nat)
    /\ (forall info rate lines,
          text <$> last (outbox (snd out))
          = Some (report_of symbol info rate lines) ->
          (1 <= c2)%nat /\ c3 = 1%nat).
Proof.
  intros symbol out. subst out. rewrite signal_handler_run. cbv zeta.
  fold symbol. rewrite signal_report_run. cbv zeta.
  pose proof (pull_calls 3 (exchange (world e))) as B1.
  pose proof (pull_positive 2 (exchange (world e))) as P1.
  destruct (pull 3 (exchange (world e))) as [[cs1|] c1]; cbn [snd] in B1, P1.
  - pose proof (pull_calls 3 (drop c1 (exchange (world e)))) as B2.
    pose proof (pull_positive 2 (drop c1 (exchange (world e)))) as P2.
    destruct (pull 3 (drop c1 (exchange (world e)))) as [[cs2|] c2];
      cbn [snd] in B2, P2.
    + exists c1, c2, 1%nat.
      assert (Hcommon :
        forall t,
          let e4 := after_reply
                  (after_get
                     (set_world e
                        (after_pull
                           (mkWorld
                              (heap (world e)
                               ++ [generate_signals_frame (mkDataFrame cs1 None)])
                              (drop c1 (exchange (world e)))
                              (requests (world e)
                               ++ replicate c1 (plan_request symbol)))
                           (rate_request symbol) c2
                           [generate_signals_frame (mkDataFrame cs2 None)]))
                     (news_url (str_drop_last 4 symbol)))
                  t (Some "Markdown"%string) in
          requests (world e4)
          = requests (world e) ++ replicate c1 (plan_request symbol)
            ++ replicate c2 (rate_request symbol)
          /\ exchange (world e4) = drop (c1 + c2) (exchange (world e))
          /\ http_log e4
             = http_log e
               ++ replicate 1 (news_url (str_drop_last 4 symbol))).
      { intros t. simpl. rewrite <- app_assoc, drop_drop. auto. }
      assert (Hany : forall t,
        let e4 := after_reply
                  (after_get
                     (set_world e
                        (after_pull
                           (mkWorld
                              (heap (world e)
                               ++ [generate_signals_frame (mkDataFrame cs1 None)])
                              (drop c1 (exchange (world e)))
                              (requests (world e)
                               ++ replicate c1 (plan_request symbol)))
                           (rate_request symbol) c2
                           [generate_signals_frame (mkDataFrame cs2 None)]))
                     (news_url (str_drop_last 4 symbol)))
                  t (Some "Markdown"%string) in
        (1 <= c1 <= 3)%nat /\ (c2 <= 3)%nat /\ (1 <= 1)%nat
        /\ requests (world e4)
           = requests (world e) ++ replicate c1 (plan_request symbol)
             ++ replicate c2 (rate_request symbol)
        /\ exchange (world e4) = drop (c1 + c2) (exchange (world e))
        /\ http_log e4
           = http_log e ++ replicate 1 (news_url (str_drop_last 4 symbol))
        /\ (1%nat = 1%nat -> (1 <= c2)%nat)
        /\ (forall info rate lines,
              text <$> last (outbox e4)
              = Some (report_of symbol info rate lines) ->
              (1 <= c2)%nat /\ 1%nat = 1%nat)).
      { intros t. destruct (Hcommon t) as (R1 & R2 & R3). cbv zeta.
        split; [lia|]. split; [lia|]. split; [lia|]. split; [exact R1|].
        split; [exact R2|]. split; [exact R3|]. split; [intros _; lia|].
        intros. split; [lia|reflexivity]. }
      destruct (news_result (first_answer (http e))) as [x|news];
        [|destruct (news_lines news) as [x|lines]];
        cbn [fst snd]; apply Hany.
    + exists c1, c2, 0%nat. cbn [fst snd].
      split; [lia|]. split; [lia|]. split; [lia|].
      split; [simpl; rewrite ?app_nil_r, <- ?app_assoc; reflexivity|].
      split; [simpl; now rewrite drop_drop|].
      split; [simpl; rewrite ?app_nil_r; reflexivity|].
      split; [discriminate|].
      intros info rate lines. simpl. rewrite last_snoc. discriminate.
  - exists c1, 0%nat, 0%nat. cbn [fst snd].
    split; [lia|]. split; [lia|]. split; [lia|].
    split; [simpl; rewrite ?app_nil_r; reflexivity|].
    split; [simpl; now rewrite Nat.add_0_r|].
    split; [simpl; rewrite ?app_nil_r; reflexivity|].
    split; [discriminate|].
    intros info rate lines. simpl. rewrite last_snoc. discriminate.
Qed.

End Signal_handler_properties.

Section Signal_handler_outcomes.
Context {ta : TA} {settings : Settings}.

Lemma two_pulls (answers : list (option (list Candle))) (k1 k2 : nat)
  (cs1 cs2 : list Candle) :
  (k1 < 3)%nat ->
  answers !! k1 = Some (Some cs1) ->
  (forall j, (j < k1)%nat -> answers !! j = Some None) ->
  (k2 < 3)%nat ->
  answers !! (S k1 + k2)%nat = Some (Some cs2) ->
  (forall j, (j < k2)%nat -> answers !! (S k1 + j)%nat = Some None) ->
  pull 3 answers = (Some cs1, S k1)
  /\ pull 3 (drop (S k1) answers) = (Some cs2, S k2).
Proof.
  intros H1 A1 B1 H2 A2 B2. split.
  - now apply pull_found.
  - apply pull_found; trivial.
    + now rewrite lookup_drop.
    + intros j Hj. rewrite lookup_drop. now apply B2.
Qed.

(** X14. When both pulls get an answer within three attempts and the news
    can be fetched and formatted, the reply is the report: the direction
    and, when there is one, the four levels of the plan computed from the
    candles of the first pull, the win rate computed from the candles of
    the second pull, and one line per news entry. Plan and rate come from
    two different pulls. *)
Theorem X14_signal_report (args : list string) (e : Env) (k1 k2 : nat)
  (cs1 cs2 : list Candle) (news : list News) (lines : list Line) :
  let symbol := signal_symbol args in
  let answers := exchange (world e) in
  (k1 < 3)%nat ->
  answers !! k1 = Some (Some cs1) ->
  (forall j, (j < k1)%nat -> answers !! j = Some None) ->
  (k2 < 3)%nat ->
  answers !! (S k1 + k2)%nat = Some (Some cs2) ->
  (forall j, (j < k2)%nat -> answers !! (S k1 + j)%nat = Some None) ->
  news_result (first_answer (http e)) = inr news ->
  news_lines news = inr lines ->
  last (outbox (snd (run_b (signal_handler args) e)))
  = Some (mkMessage
            (report_of symbol
               (trend cs1 (labelled (mkDataFrame cs1 None)))
               (win_rate cs2 (labelled (mkDataFrame cs2 None))
                         LOOKBACK_SIGNALS)
               lines)
            (Some "Markdown"%string)).
Proof.
  intros symbol answers H1 A1 B1 H2 A2 B2 Hnews Hlines.
  destruct (two_pulls answers k1 k2 cs1 cs2 H1 A1 B1 H2 A2 B2) as [P1 P2].
  rewrite signal_handler_run. cbv zeta. fold symbol.
  rewrite signal_report_run. cbv zeta. fold answers.
  rewrite P1, P2, Hnews, Hlines. cbn [fst snd after_reply outbox].
  apply last_snoc.
Qed.

(** X15. The failure text replaces the whole report in each of these cases.
    When three requests for the plan's candles fail in a row, nothing else
    is requested: no second pull, no news, no frame. When both pulls
    succeeded but the news cannot be fetched or an entry's date cannot be
    cut to ten characters, the plan and the rate already computed are
    dropped. *)
Theorem X15_signal_failure (args : list string) (e : Env) :
  let symbol := signal_symbol args in
  let w := world e in
  let out := run_b (signal_handler args) e in
  ((forall j, (j < 3)%nat ->
              exchange w !! j = Some None \/ exchange w !! j = None) ->
   snd out
   = after_reply
       (set_world e
          (mkWorld (heap w) (drop 3 (exchange w))
                   (requests w ++ replicate 3 (plan_request symbol))))
       (SignalFailure symbol) (Some "Markdown"%string))
  /\ (forall k1 k2 cs1 cs2,
        (k1 < 3)%nat ->
        exchange w !! k1 = Some (Some cs1) ->
        (forall j, (j < k1)%nat -> exchange w !! j = Some None) ->
        (k2 < 3)%nat ->
        exchange w !! (S k1 + k2)%nat = Some (Some cs2) ->
        (forall j, (j < k2)%nat -> exchange w !! (S k1 + j)%nat = Some None) ->
        ((exists x, news_result (first_answer (http e)) = inl x)
         \/ exists news x, news_result (first_answer (http e)) = inr news
                           /\ news_lines news = inl x) ->
        last (outbox (snd out))
        = Some (mkMessage (SignalFailure symbol) (Some "Markdown"%string))).
Proof.
  intros symbol w out. subst out. rewrite signal_handler_run. cbv zeta.
  fold symbol. rewrite signal_report_run. cbv zeta. fold w. split.
  - intros Hfail. rewrite (pull_failed 3 (exchange w) Hfail). cbn [fst snd].
    unfold after_pull. now rewrite app_nil_r.
  - intros k1 k2 cs1 cs2 H1 A1 B1 H2 A2 B2 Hbad.
    destruct (two_pulls (exchange w) k1 k2 cs1 cs2 H1 A1 B1 H2 A2 B2)
      as [P1 P2].
    rewrite P1, P2.
    destruct Hbad as [[x ->]|(news & x & -> & ->)];
      cbn [fst snd after_reply outbox]; apply last_snoc.
Qed.

End Signal_handler_outcomes.

Lemma X14_signal_report_witness :
  last (outbox (snd (run_b (@signal_handler spec_ta demo_settings
                              ["btcusdt"%string])
                           signal_env)))
  = Some (mkMessage
            (@report_of demo_settings "BTCUSDT"
               (trend still_candles
                      (@labelled spec_ta (mkDataFrame still_candles None)))
               (win_rate edge_candles
                         (@labelled spec_ta (mkDataFrame edge_candles None))
                         100)
               [NewsLine (JStr "Upgrade") (JStr "btc") (JStr "2024-05-01");
                NewsLine (JStr "Listing") (JStr "btc_news") (JStr "2024-04-30");
                NewsLine (JStr "Audit") (JStr "btc_dev") (JStr "2024-04-29")])
            (Some "Markdown"%string)).
Proof.
  apply (@X14_signal_report spec_ta demo_settings ["btcusdt"%string]
           signal_env 1%nat 0%nat still_candles edge_candles
           [mkNews (JStr "2024-05-01T10:00:00Z") (JStr "Upgrade") (JStr "btc");
            mkNews (JStr "2024-04-30T09:00:00Z") (JStr "Listing")
                   (JStr "btc_news");
            mkNews (JStr "2024-04-29T08:00:00Z") (JStr "Audit")
                   (JStr "btc_dev")]).
  - lia.
  - reflexivity.
  - intros j Hj. assert (j = 0%nat) as -> by lia. reflexivity.
  - lia.
  - reflexivity.
  - intros j Hj. lia.
  - reflexivity.
  - reflexivity.
Defined.

Example signal_sample :
  http_log (snd (run_b (@signal_handler spec_ta demo_settings
                          ["btcusdt"%string]) signal_env))
  = ["https://api.coingecko.com/api/v3/coins/btc/status_updates"%string]
  /\ requests (world (snd (run_b (@signal_handler spec_ta demo_settings
                                   ["btcusdt"%string]) signal_env)))
     = [mkRequest "BTCUSDT" "1h" 500; mkRequest "BTCUSDT" "1h" 500;
        mkRequest "BTCUSDT" "1h" 150].
Proof. split; vm_compute; reflexivity. Qed.

(** ** Labels are local *)

Section Locality.
Context {ta : TA}.

(** X17. The label of a bar depends on the indicator values of that bar
    and of the bar before it only: two frames whose fast EMA, slow EMA and
    RSI agree on bars [i-1] and [i] get the same label at bar [i], whatever
    their other bars, later ones included, and whatever their lengths. *)
Theorem X17_label_local (df1 df2 : DataFrame) (i : nat) :
  (i < len df1)%nat -> (i < len df2)%nat ->
  (forall j, j = (i - 1)%nat \/ j = i ->
     cell (EMA_fast (labelled df1)) j = cell (EMA_fast (labelled df2)) j
     /\ cell (EMA_slow (labelled df1)) j = cell (EMA_slow (labelled df2)) j
     /\ cell (RSI (labelled df1)) j = cell (RSI (labelled df2)) j) ->
  signal (labelled df1) !! i = signal (labelled df2) !! i.
Proof.
  intros H1 H2 Hsame. rewrite !labelled_signal by assumption.
  destruct (Hsame (i - 1)%nat ltac:(now left)) as (A1 & A2 & _).
  destruct (Hsame i ltac:(now right)) as (B1 & B2 & B3).
  unfold crossing. now rewrite A1, A2, B1, B2, B3.
Qed.

End Locality.

Lemma X17_label_local_witness :
  signal (@labelled spec_ta (mkDataFrame (take 35 edge_candles) None)) !! 33%nat
  = signal (@labelled spec_ta edge_frame) !! 33%nat.
Proof.
  apply (@X17_label_local spec_ta (mkDataFrame (take 35 edge_candles) None)
           edge_frame 33%nat).
  - change (len (mkDataFrame (take 35 edge_candles) None)) with 35%nat. lia.
  - change (len edge_frame) with 38%nat. lia.
  - intros j [->| ->]; vm_compute; repeat split.
Defined.

(** ** The coin asked of the news feed *)

Lemma upper_length (s : string) : String.length (upper s) = String.length s.
Proof. induction s as [|c s IH]; simpl; congruence. Qed.

Lemma lower_upper_char (c : ascii) : lower_char (upper_char c) = lower_char c.
Proof.
  destruct c as [[] [] [] [] [] [] [] []]; reflexivity.
Qed.

Lemma lower_upper (s : string) : lower (upper s) = lower s.
Proof.
  induction s as [|c s IH]; simpl; trivial.
  now rewrite lower_upper_char, IH.
Qed.

Lemma lower_substring (n : nat) (s : string) :
  lower (String.substring 0 n s) = String.substring 0 n (lower s).
Proof.
  revert n. induction s as [|c s IH]; intros [|n]; simpl; trivial.
  now rewrite IH.
Qed.

Lemma lower_length (s : string) : String.length (lower s) = String.length s.
Proof. induction s as [|c s IH]; simpl; congruence. Qed.

Lemma substring_nothing (s : string) : String.substring 0 0 s = EmptyString.
Proof. now destruct s. Qed.

Section Coin.
Context {settings : Settings}.

(** X16. For a symbol given as argument, the coin [signal_handler] asks the
    news feed about is the argument in lower case without its last four
    characters, whatever the case it was typed in; when the argument has
    four characters or fewer the coin is the empty string and the address
    has an empty path segment. *)
Theorem X16_news_coin (a : string) (rest : list string) :
  let symbol := signal_symbol (a :: rest) in
  news_url (str_drop_last 4 symbol)
  = String.append "https://api.coingecko.com/api/v3/coins/"
      (String.append (str_drop_last 4 (lower a)) "/status_updates")
  /\ ((String.length a <= 4)%nat ->
      news_url (str_drop_last 4 symbol)
      = "https://api.coingecko.com/api/v3/coins//status_updates"%string).
Proof.
  intros symbol. subst symbol. simpl signal_symbol.
  assert (E : lower (str_drop_last 4 (upper a)) = str_drop_last 4 (lower a)).
  { unfold str_drop_last.
    now rewrite lower_substring, lower_upper, upper_length, lower_length. }
  unfold news_url. rewrite E. split; trivial.
  intros Hshort. unfold str_drop_last.
  rewrite lower_length.
  replace (String.length a - 4)%nat with 0%nat by lia.
  now rewrite substring_nothing.
Qed.

End Coin.
